(** * Serial: the Windows serial-port session of src/serial_windows.cpp

    A shallow embedding of namespace [WindowsSystem]: the four file-scope
    globals, the six exported functions, and the Win32 calls they make.
    The Win32 driver is a parameter; every call the code makes is threaded
    through an explicit state that also keeps a log of the calls, so that
    a statement such as: exactly one driver read, can be written down. *)

From Stdlib Require Import ZArith List Bool Ascii Lia.
From Stdlib Require String DecimalString.
Import String.StringSyntax.
Local Open Scope string_scope.
Local Open Scope list_scope.
Local Open Scope Z_scope.
Import ListNotations.

(** ** Machine integers and byte strings *)

(** [int] is a 32-bit signed integer, [DWORD] a 32-bit unsigned one,
    [BYTE] an 8-bit unsigned one; [size_t] is taken at 64 bits. The
    conversions below are the implicit conversions of the C++ source. *)
Definition DWORD_of_int (z : Z) : Z := z mod 2 ^ 32.
Definition BYTE_of_int (z : Z) : Z := z mod 2 ^ 8.
Definition int_of_unsigned (z : Z) : Z := (z + 2 ^ 31) mod 2 ^ 32 - 2 ^ 31.
Definition size_t_of_int (z : Z) : Z := z mod 2 ^ 64.
Definition INT_MAX : Z := 2 ^ 31 - 1.

Definition bytes := list ascii.
Definition lit (s : String.string) : bytes := String.list_ascii_of_string s.

(** [std::string(char* p)]: the bytes before the first zero byte. *)
Fixpoint string_of_cstr (p : bytes) : bytes :=
  match p with
  | [] => []
  | c :: p' => if Ascii.eqb c zero then [] else c :: string_of_cstr p'
  end.

(** [s.c_str()]: the bytes of [s] followed by the terminating zero. *)
Definition c_str (s : bytes) : bytes := s ++ [zero].

(** [memcpy(dst, src, n)] on the bytes found at [dst]: the first [n] bytes
    are replaced; a destination shorter than [n] is written past its end. *)
Definition memcpy (dst src : bytes) (n : nat) : bytes :=
  firstn n src ++ skipn n dst.

Fixpoint prefixb (p l : bytes) : bool :=
  match p, l with
  | [], _ => true
  | _ :: _, [] => false
  | a :: p', b :: l' => Ascii.eqb a b && prefixb p' l'
  end.

Fixpoint find_from (l s : bytes) (pos : nat) : option nat :=
  if prefixb s l then Some pos
  else match l with
       | [] => None
       | _ :: l' => find_from l' s (S pos)
       end.

(** [l.find(s)]: the first position at which [s] occurs in [l];
    [None] stands for [std::string::npos]. *)
Definition find (l s : bytes) : option nat := find_from l s 0.

(** [s] occurs in [l] as a contiguous run of bytes. *)
Definition Occurs (s l : bytes) : Prop := exists a b, l = a ++ s ++ b.

(** [l.erase(pos)]: everything from [pos] on is removed. *)
Definition erase (l : bytes) (pos : nat) : bytes := firstn pos l.

(** [std::to_string(i)] for a non-negative [i]. *)
Definition to_string (i : nat) : bytes :=
  lit (DecimalString.NilEmpty.string_of_uint (Nat.to_uint i)).

(** ** Win32 types *)

Definition HANDLE := Z.
Definition INVALID_HANDLE_VALUE : HANDLE := -1.
Definition NULL : HANDLE := 0.
Definition FILE_ATTRIBUTE_NORMAL : Z := 128.

Record DCB := mkDCB {
  DCBlength : Z;
  BaudRate : Z;
  fFlags : Z;
  wReserved : Z;
  XonLim : Z;
  XoffLim : Z;
  ByteSize : Z;
  Parity : Z;
  StopBits : Z;
  XonChar : Z;
  XoffChar : Z;
  ErrorChar : Z;
  EofChar : Z;
  EvtChar : Z;
  wReserved1 : Z
}.

Definition sizeof_DCB : Z := 28.
Definition DCB_zero : DCB := mkDCB 0 0 0 0 0 0 0 0 0 0 0 0 0 0 0.

Definition set_DCBlength (v : Z) (d : DCB) : DCB :=
  mkDCB v (BaudRate d) (fFlags d) (wReserved d) (XonLim d) (XoffLim d)
        (ByteSize d) (Parity d) (StopBits d) (XonChar d) (XoffChar d)
        (ErrorChar d) (EofChar d) (EvtChar d) (wReserved1 d).

(** The four assignments of [open] to the fetched line state. *)
Definition set_line (baud size par stop : Z) (d : DCB) : DCB :=
  mkDCB (DCBlength d) baud (fFlags d) (wReserved d) (XonLim d) (XoffLim d)
        size par stop (XonChar d) (XoffChar d)
        (ErrorChar d) (EofChar d) (EvtChar d) (wReserved1 d).

(** Two line states that agree on everything [open] does not assign. *)
Definition same_elsewhere (a b : DCB) : Prop :=
  DCBlength a = DCBlength b /\ fFlags a = fFlags b /\
  wReserved a = wReserved b /\ XonLim a = XonLim b /\ XoffLim a = XoffLim b /\
  XonChar a = XonChar b /\ XoffChar a = XoffChar b /\
  ErrorChar a = ErrorChar b /\ EofChar a = EofChar b /\
  EvtChar a = EvtChar b /\ wReserved1 a = wReserved1 b.

Record COMMTIMEOUTS := mkTimeouts {
  ReadIntervalTimeout : Z;
  ReadTotalTimeoutMultiplier : Z;
  ReadTotalTimeoutConstant : Z;
  WriteTotalTimeoutMultiplier : Z;
  WriteTotalTimeoutConstant : Z
}.

Definition COMMTIMEOUTS_zero : COMMTIMEOUTS := mkTimeouts 0 0 0 0 0.

Definition set_read_timeouts (interval constant multiplier : Z)
    (t : COMMTIMEOUTS) : COMMTIMEOUTS :=
  mkTimeouts interval multiplier constant
             (WriteTotalTimeoutMultiplier t) (WriteTotalTimeoutConstant t).

Definition set_write_timeouts (constant multiplier : Z)
    (t : COMMTIMEOUTS) : COMMTIMEOUTS :=
  mkTimeouts (ReadIntervalTimeout t) (ReadTotalTimeoutMultiplier t)
             (ReadTotalTimeoutConstant t) multiplier constant.

(** The status enumeration named by the source. Its numeric values live in
    serial_windows.h; the code only ever passes them through [status]. *)
Inductive StatusCodes :=
| SUCCESS
| INVALID_HANDLE_ERROR
| GET_PROPERTY_ERROR
| SET_PROPERTY_ERROR
| SET_TIMEOUT_ERROR
| CLOSE_HANDLE_ERROR
| READ_ERROR
| WRITE_ERROR
| BUFFER_ERROR.

(** ** The log of driver calls *)

(** One entry per Win32 call, with its arguments and what came back. *)
Inductive Call :=
| CallCreateFile (name : bytes) (attrs : Z) (ret : HANDLE)
| CallGetCommState (h : HANDLE) (ok : bool) (out : DCB)
| CallSetCommState (h : HANDLE) (dcb : DCB) (ok : bool)
| CallSetCommTimeouts (h : HANDLE) (t : COMMTIMEOUTS) (ok : bool)
| CallCloseHandle (h : HANDLE) (ok : bool)
| CallReadFile (h : HANDLE) (n : Z) (ok : bool) (got : bytes)
| CallWriteFile (h : HANDLE) (offered : bytes) (ok : bool) (written : Z).

(** Handles handed out by [CreateFile] and not yet passed to [CloseHandle].
    A handle passed to [CloseHandle] is given up whatever the call answers. *)
Definition owned_step (acc : list HANDLE) (c : Call) : list HANDLE :=
  match c with
  | CallCreateFile _ _ h =>
      if h =? INVALID_HANDLE_VALUE then acc else h :: acc
  | CallCloseHandle h _ => remove Z.eq_dec h acc
  | _ => acc
  end.

Definition owned (cs : list Call) : list HANDLE := fold_left owned_step cs [].

(** The names a log shows [CreateFile] answering with a usable handle. *)
Definition probed_step (c : Call) : list bytes :=
  match c with
  | CallCreateFile name _ h =>
      if h =? INVALID_HANDLE_VALUE then [] else [name]
  | _ => []
  end.

Definition probed (cs : list Call) : list bytes := flat_map probed_step cs.

(** [names] with [sep] between neighbours and nothing after the last. *)
Fixpoint join (sep : bytes) (names : list bytes) : bytes :=
  match names with
  | [] => []
  | n :: rest =>
      match rest with
      | [] => n
      | _ :: _ => n ++ sep ++ join sep rest
      end
  end.

(** What one [ReadFile] call of the loop of [readUntil] answered, the log
    entry it leaves, and the bytes a run of such calls delivered. *)
Definition read_call (h : HANDLE) (a : bool * bytes) : Call :=
  CallReadFile h 1 (fst a) (snd a).
Definition one_byte (a : bool * bytes) : Prop :=
  fst a = true /\ length (snd a) = 1%nat.
Definition received (answers : list (bool * bytes)) : bytes :=
  concat (map snd answers).

(** ** The driver *)

(** What the operating system answers; [W] is its state. *)
Record Driver (W : Type) := mkDriver {
  drv_CreateFile : bytes -> Z -> W -> HANDLE * W;
  drv_GetCommState : HANDLE -> DCB -> W -> (bool * DCB) * W;
  drv_SetCommState : HANDLE -> DCB -> W -> bool * W;
  drv_SetCommTimeouts : HANDLE -> COMMTIMEOUTS -> W -> bool * W;
  drv_CloseHandle : HANDLE -> W -> bool * W;
  drv_ReadFile : HANDLE -> Z -> W -> (bool * bytes) * W;
  drv_WriteFile : HANDLE -> bytes -> W -> (bool * Z) * W
}.

Arguments drv_CreateFile {W} _ _ _ _.
Arguments drv_GetCommState {W} _ _ _ _.
Arguments drv_SetCommState {W} _ _ _ _.
Arguments drv_SetCommTimeouts {W} _ _ _ _.
Arguments drv_CloseHandle {W} _ _ _.
Arguments drv_ReadFile {W} _ _ _ _.
Arguments drv_WriteFile {W} _ _ _ _.

(** The part of the Win32 contract the proofs rely on: a read hands back at
    most the number of bytes asked for, a write reports at most the number
    of bytes offered. *)
Record DriverOk {W : Type} (drv : Driver W) : Prop := mkDriverOk {
  ReadFile_bound : forall h n w,
    0 <= n -> Z.of_nat (length (snd (fst (drv_ReadFile drv h n w)))) <= n;
  WriteFile_bound : forall h bs w,
    0 <= snd (fst (drv_WriteFile drv h bs w)) <= Z.of_nat (length bs)
}.

Section Serial.

Variable W : Type.
Variable drv : Driver W.
Variable status : StatusCodes -> Z.

(** ** State: the globals of the namespace, the driver, the call log *)

Record State := mkState {
  hSerialPort : HANDLE;
  dcbSerialParams : DCB;
  timeouts : COMMTIMEOUTS;
  data : bytes;
  world : W;
  calls : list Call
}.

(** The globals as they are when the program starts: objects at namespace
    scope are zero-initialised, so the handle is [NULL]. *)
Definition initial (w : W) : State :=
  mkState NULL DCB_zero COMMTIMEOUTS_zero [] w [].

Definition set_hSerialPort (h : HANDLE) (st : State) : State :=
  mkState h (dcbSerialParams st) (timeouts st) (data st) (world st) (calls st).
Definition set_dcbSerialParams (d : DCB) (st : State) : State :=
  mkState (hSerialPort st) d (timeouts st) (data st) (world st) (calls st).
Definition set_timeouts (t : COMMTIMEOUTS) (st : State) : State :=
  mkState (hSerialPort st) (dcbSerialParams st) t (data st) (world st) (calls st).
Definition set_data (s : bytes) (st : State) : State :=
  mkState (hSerialPort st) (dcbSerialParams st) (timeouts st) s (world st) (calls st).
Definition called (c : Call) (w : W) (st : State) : State :=
  mkState (hSerialPort st) (dcbSerialParams st) (timeouts st) (data st) w
          (calls st ++ [c]).

(** The session is opened when the handle it holds is one the process owns. *)
Definition opened (st : State) : Prop := In (hSerialPort st) (owned (calls st)).

Definition M (A : Type) : Type := State -> A * State.
Definition ret {A} (a : A) : M A := fun st => (a, st).
Definition bind {A B} (c : M A) (k : A -> M B) : M B :=
  fun st => let (a, st') := c st in k a st'.
Definition get : M State := fun st => (st, st).
Definition modify (f : State -> State) : M unit := fun st => (tt, f st).

Notation "x <- c1 ;; c2" := (bind c1 (fun x => c2))
  (at level 61, c1 at next level, right associativity).
Notation "c1 ;;; c2" := (bind c1 (fun _ => c2))
  (at level 61, right associativity).

(** *** The Win32 calls, each one logged *)

Definition CreateFile (name : bytes) (attrs : Z) : M HANDLE := fun st =>
  let (h, w) := drv_CreateFile drv name attrs (world st) in
  (h, called (CallCreateFile name attrs h) w st).

(** [GetCommState(h, &dcbSerialParams)]: the driver fills the global. *)
Definition GetCommState (h : HANDLE) : M bool := fun st =>
  let '((ok, d), w) := drv_GetCommState drv h (dcbSerialParams st) (world st) in
  (ok, called (CallGetCommState h ok d) w (set_dcbSerialParams d st)).

Definition SetCommState (h : HANDLE) (d : DCB) : M bool := fun st =>
  let (ok, w) := drv_SetCommState drv h d (world st) in
  (ok, called (CallSetCommState h d ok) w st).

Definition SetCommTimeouts (h : HANDLE) (t : COMMTIMEOUTS) : M bool := fun st =>
  let (ok, w) := drv_SetCommTimeouts drv h t (world st) in
  (ok, called (CallSetCommTimeouts h t ok) w st).

Definition CloseHandle (h : HANDLE) : M bool := fun st =>
  let (ok, w) := drv_CloseHandle drv h (world st) in
  (ok, called (CallCloseHandle h ok) w st).

(** [ReadFile(h, p, n, &bytesRead, NULL)]: the answer and the bytes put at
    [p]; [bytesRead] is their number. *)
Definition ReadFile (h : HANDLE) (n : Z) : M (bool * bytes) := fun st =>
  let '((ok, got), w) := drv_ReadFile drv h n (world st) in
  ((ok, got), called (CallReadFile h n ok got) w st).

(** [WriteFile(h, p, n, &bytesWritten, NULL)]: the driver is offered the
    first [n] bytes at [p]. *)
Definition WriteFile (h : HANDLE) (p : bytes) (n : Z) : M (bool * Z) := fun st =>
  let offered := firstn (Z.to_nat n) p in
  let '((ok, k), w) := drv_WriteFile drv h offered (world st) in
  ((ok, k), called (CallWriteFile h offered ok k) w st).

(** ** The exported functions *)

Definition open (port : bytes) (baudrate dataBits parity stopBits : Z) : M Z :=
  st <- get ;;
  modify (set_dcbSerialParams (set_DCBlength sizeof_DCB (dcbSerialParams st))) ;;;
  h <- CreateFile port FILE_ATTRIBUTE_NORMAL ;;
  modify (set_hSerialPort h) ;;;
  if h =? INVALID_HANDLE_VALUE then ret (status INVALID_HANDLE_ERROR)
  else
    ok <- GetCommState h ;;
    if negb ok then CloseHandle h ;;; ret (status GET_PROPERTY_ERROR)
    else
      st <- get ;;
      modify (set_dcbSerialParams
                (set_line (DWORD_of_int baudrate) (BYTE_of_int dataBits)
                          (BYTE_of_int parity) (BYTE_of_int stopBits)
                          (dcbSerialParams st))) ;;;
      st <- get ;;
      ok <- SetCommState h (dcbSerialParams st) ;;
      if negb ok then CloseHandle h ;;; ret (status SET_PROPERTY_ERROR)
      else
        modify (set_timeouts (mkTimeouts 50 10 50 10 50)) ;;;
        st <- get ;;
        ok <- SetCommTimeouts h (timeouts st) ;;
        if negb ok then CloseHandle h ;;; ret (status SET_TIMEOUT_ERROR)
        else ret (status SUCCESS).

Definition close : M Z :=
  st <- get ;;
  if hSerialPort st =? INVALID_HANDLE_VALUE then ret (status INVALID_HANDLE_ERROR)
  else
    ok <- CloseHandle (hSerialPort st) ;;
    if negb ok then ret (status CLOSE_HANDLE_ERROR)
    else ret (status SUCCESS).

(** [buffer] is the memory the caller's pointer designates; every function
    that may write to it hands back its contents afterwards. *)
Definition read (buffer : bytes) (bufferSize timeout multiplier : Z)
    : M (Z * bytes) :=
  st <- get ;;
  if hSerialPort st =? INVALID_HANDLE_VALUE
  then ret (status INVALID_HANDLE_ERROR, buffer)
  else
    modify (set_timeouts
              (set_read_timeouts (DWORD_of_int timeout) (DWORD_of_int timeout)
                                 (DWORD_of_int multiplier) (timeouts st))) ;;;
    st <- get ;;
    ok <- SetCommTimeouts (hSerialPort st) (timeouts st) ;;
    if negb ok then ret (status SET_TIMEOUT_ERROR, buffer)
    else
      r <- ReadFile (hSerialPort st) (DWORD_of_int bufferSize) ;;
      let (ok, got) := r in
      let buffer' := memcpy buffer got (length got) in
      if negb ok then ret (status READ_ERROR, buffer')
      else ret (int_of_unsigned (Z.of_nat (length got)), buffer').

(** How the loop of [readUntil] is left. *)
Inductive LoopExit := FellThrough | ReadFailed.

(** The [for] loop of [readUntil]. [n] is [bufferSize - i], the number of
    iterations the counter still allows, so [i < bufferSize] is [n <> 0];
    [bufferChar] has one element, so the read asks for one byte. *)
Fixpoint readUntil_loop (n : nat) (searchString : bytes) : M LoopExit :=
  match n with
  | O => ret FellThrough
  | S n' =>
      st <- get ;;
      match find (data st) (string_of_cstr searchString) with
      | Some _ => ret FellThrough
      | None =>
          r <- ReadFile (hSerialPort st) 1 ;;
          let (ok, got) := r in
          if negb ok then ret ReadFailed
          else if (length got =? 0)%nat then ret FellThrough
          else
            st <- get ;;
            modify (set_data (data st ++ got)) ;;;
            readUntil_loop n' searchString
      end
  end.

Definition readUntil (buffer : bytes) (bufferSize timeout multiplier : Z)
    (searchString : bytes) : M (Z * bytes) :=
  st <- get ;;
  if hSerialPort st =? INVALID_HANDLE_VALUE
  then ret (status INVALID_HANDLE_ERROR, buffer)
  else
    modify (set_timeouts
              (set_read_timeouts (DWORD_of_int timeout) (DWORD_of_int timeout)
                                 (DWORD_of_int multiplier) (timeouts st))) ;;;
    st <- get ;;
    ok <- SetCommTimeouts (hSerialPort st) (timeouts st) ;;
    if negb ok then ret (status SET_TIMEOUT_ERROR, buffer)
    else
      modify (set_data []) ;;;
      e <- readUntil_loop (Z.to_nat bufferSize) searchString ;;
      match e with
      | ReadFailed => ret (status READ_ERROR, buffer)
      | FellThrough =>
          st <- get ;;
          ret (int_of_unsigned (Z.of_nat (length (data st))),
               memcpy buffer (c_str (data st)) (length (data st) + 1))
      end.

Definition write (buffer : bytes) (bufferSize timeout multiplier : Z) : M Z :=
  st <- get ;;
  modify (set_timeouts
            (set_write_timeouts (DWORD_of_int timeout) (DWORD_of_int multiplier)
                                (timeouts st))) ;;;
  st <- get ;;
  ok <- SetCommTimeouts (hSerialPort st) (timeouts st) ;;
  if negb ok then ret (status SET_TIMEOUT_ERROR)
  else
    r <- WriteFile (hSerialPort st) buffer (DWORD_of_int bufferSize) ;;
    let (ok, written) := r in
    if negb ok then ret (status WRITE_ERROR)
    else ret (int_of_unsigned written).

(** One iteration of the probing loop of [getAvailablePorts]; [acc] holds
    [result] and [portsCounter]. *)
Definition probe (separator : bytes) (acc : bytes * Z) (i : nat)
    : M (bytes * Z) :=
  let portName := lit "COM" ++ to_string i in
  hPort <- CreateFile portName 0 ;;
  let acc' :=
    if hPort =? INVALID_HANDLE_VALUE then acc
    else (fst acc ++ (portName ++ string_of_cstr separator), snd acc + 1) in
  CloseHandle hPort ;;;
  ret acc'.

Fixpoint for_each {A} (body : A -> nat -> M A) (acc : A) (idxs : list nat) : M A :=
  match idxs with
  | [] => ret acc
  | i :: rest => acc' <- body acc i ;; for_each body acc' rest
  end.

Definition getAvailablePorts (buffer : bytes) (bufferSize : Z)
    (separator : bytes) : M (Z * bytes) :=
  acc <- for_each (probe separator) ([], 0) (seq 1 256) ;;
  let (result, portsCounter) := acc in
  let result :=
    if (0 <? length result)%nat then erase result (length result - 1)
    else result in
  if size_t_of_int bufferSize <? Z.of_nat (length result) + 1
  then ret (status BUFFER_ERROR, buffer)
  else ret (portsCounter, memcpy buffer (c_str result) (length result + 1)).

End Serial.

Arguments hSerialPort {W} _.
Arguments dcbSerialParams {W} _.
Arguments timeouts {W} _.
Arguments data {W} _.
Arguments world {W} _.
Arguments calls {W} _.
Arguments mkState {W} _ _ _ _ _ _.
Arguments initial {W} _.
Arguments opened {W} _.
Arguments open {W} drv status port baudrate dataBits parity stopBits _.
Arguments close {W} drv status _.
Arguments read {W} drv status buffer bufferSize timeout multiplier _.
Arguments readUntil {W} drv status buffer bufferSize timeout multiplier searchString _.
Arguments readUntil_loop {W} drv n searchString _.
Arguments write {W} drv status buffer bufferSize timeout multiplier _.
Arguments getAvailablePorts {W} drv status buffer bufferSize separator _.
Arguments probe {W} drv separator acc i _.
Arguments for_each {W A} body acc idxs _.

(** ** The ways through [open] *)

(** The five ways through [open], told apart by what the driver answered. *)
Inductive OpenPath {W : Type} (status : StatusCodes -> Z) (port : bytes)
    (line : DCB -> DCB) (st st' : State W) (r : Z) : Prop :=
| NoHandle :
    calls st' = calls st ++
      [CallCreateFile port FILE_ATTRIBUTE_NORMAL INVALID_HANDLE_VALUE] ->
    hSerialPort st' = INVALID_HANDLE_VALUE ->
    r = status INVALID_HANDLE_ERROR ->
    OpenPath status port line st st' r
| NoState h d okc :
    h <> INVALID_HANDLE_VALUE ->
    calls st' = calls st ++
      [CallCreateFile port FILE_ATTRIBUTE_NORMAL h;
       CallGetCommState h false d;
       CallCloseHandle h okc] ->
    hSerialPort st' = h ->
    r = status GET_PROPERTY_ERROR ->
    OpenPath status port line st st' r
| StateRefused h d okc :
    h <> INVALID_HANDLE_VALUE ->
    calls st' = calls st ++
      [CallCreateFile port FILE_ATTRIBUTE_NORMAL h;
       CallGetCommState h true d;
       CallSetCommState h (line d) false;
       CallCloseHandle h okc] ->
    hSerialPort st' = h ->
    r = status SET_PROPERTY_ERROR ->
    OpenPath status port line st st' r
| TimeoutsRefused h d okc :
    h <> INVALID_HANDLE_VALUE ->
    calls st' = calls st ++
      [CallCreateFile port FILE_ATTRIBUTE_NORMAL h;
       CallGetCommState h true d;
       CallSetCommState h (line d) true;
       CallSetCommTimeouts h (mkTimeouts 50 10 50 10 50) false;
       CallCloseHandle h okc] ->
    hSerialPort st' = h ->
    r = status SET_TIMEOUT_ERROR ->
    OpenPath status port line st st' r
| AllAccepted h d :
    h <> INVALID_HANDLE_VALUE ->
    calls st' = calls st ++
      [CallCreateFile port FILE_ATTRIBUTE_NORMAL h;
       CallGetCommState h true d;
       CallSetCommState h (line d) true;
       CallSetCommTimeouts h (mkTimeouts 50 10 50 10 50) true] ->
    hSerialPort st' = h ->
    dcbSerialParams st' = line d ->
    timeouts st' = mkTimeouts 50 10 50 10 50 ->
    r = status SUCCESS ->
    OpenPath status port line st st' r.

(** ** The status values *)

(** Modelled from the spec: the numeric values of [StatusCodes] and the
    [status] conversion of serial_windows.h, which is not among the sources.
    The spec fixes [SUCCESS] at 0, makes every error negative and calls the
    enumeration dense; the errors are numbered in the order it lists them. *)
Definition status_dense (c : StatusCodes) : Z :=
  match c with
  | SUCCESS => 0
  | INVALID_HANDLE_ERROR => -1
  | GET_PROPERTY_ERROR => -2
  | SET_PROPERTY_ERROR => -3
  | SET_TIMEOUT_ERROR => -4
  | CLOSE_HANDLE_ERROR => -5
  | READ_ERROR => -6
  | WRITE_ERROR => -7
  | BUFFER_ERROR => -8
  end.

(** What the spec says of the status values: success is zero, errors are
    negative. *)
Definition status_signed (status : StatusCodes -> Z) : Prop :=
  status SUCCESS = 0 /\ forall c, c <> SUCCESS -> status c < 0.

(** ** A simulated driver *)

(** A small operating system to run the functions on: named devices, a table
    of live handles, one line state, a queue of received bytes, and switches
    that make single requests fail. *)
Module Sim.

Inductive Request :=
| ReqGetCommState
| ReqSetCommState
| ReqSetCommTimeouts
| ReqCloseHandle
| ReqWriteFile.

Definition Request_eqb (a b : Request) : bool :=
  match a, b with
  | ReqGetCommState, ReqGetCommState
  | ReqSetCommState, ReqSetCommState
  | ReqSetCommTimeouts, ReqSetCommTimeouts
  | ReqCloseHandle, ReqCloseHandle
  | ReqWriteFile, ReqWriteFile => true
  | _, _ => false
  end.

Record World := mkWorld {
  present : list bytes;
  live : list HANDLE;
  fresh : HANDLE;
  line : DCB;
  tmo : COMMTIMEOUTS;
  rx : bytes;
  rx_fault : option nat;
  tx : bytes;
  refused : list Request
}.

Fixpoint bytes_eqb (a b : bytes) : bool :=
  match a, b with
  | [], [] => true
  | x :: a', y :: b' => Ascii.eqb x y && bytes_eqb a' b'
  | _, _ => false
  end.

Definition is_live (h : HANDLE) (w : World) : bool := existsb (Z.eqb h) (live w).
Definition refuses (r : Request) (w : World) : bool :=
  existsb (Request_eqb r) (refused w).
Definition serves (r : Request) (h : HANDLE) (w : World) : bool :=
  is_live h w && negb (refuses r w).

Definition CreateFile (name : bytes) (attrs : Z) (w : World) : HANDLE * World :=
  if existsb (bytes_eqb name) (present w)
  then (fresh w,
        mkWorld (present w) (fresh w :: live w) (fresh w + 1) (line w) (tmo w)
                (rx w) (rx_fault w) (tx w) (refused w))
  else (INVALID_HANDLE_VALUE, w).

Definition GetCommState (h : HANDLE) (d : DCB) (w : World)
    : (bool * DCB) * World :=
  if serves ReqGetCommState h w then ((true, line w), w) else ((false, d), w).

Definition SetCommState (h : HANDLE) (d : DCB) (w : World) : bool * World :=
  if serves ReqSetCommState h w
  then (true,
        mkWorld (present w) (live w) (fresh w) d (tmo w)
                (rx w) (rx_fault w) (tx w) (refused w))
  else (false, w).

Definition SetCommTimeouts (h : HANDLE) (t : COMMTIMEOUTS) (w : World)
    : bool * World :=
  if serves ReqSetCommTimeouts h w
  then (true,
        mkWorld (present w) (live w) (fresh w) (line w) t
                (rx w) (rx_fault w) (tx w) (refused w))
  else (false, w).

Definition CloseHandle (h : HANDLE) (w : World) : bool * World :=
  if serves ReqCloseHandle h w
  then (true,
        mkWorld (present w) (remove Z.eq_dec h (live w)) (fresh w) (line w)
                (tmo w) (rx w) (rx_fault w) (tx w) (refused w))
  else (false, w).

Definition ReadFile (h : HANDLE) (n : Z) (w : World) : (bool * bytes) * World :=
  if is_live h w then
    match rx_fault w with
    | Some O => ((false, []), w)
    | fault =>
        ((true, firstn (Z.to_nat n) (rx w)),
         mkWorld (present w) (live w) (fresh w) (line w) (tmo w)
                 (skipn (Z.to_nat n) (rx w)) (option_map pred fault)
                 (tx w) (refused w))
    end
  else ((false, []), w).

Definition WriteFile (h : HANDLE) (bs : bytes) (w : World) : (bool * Z) * World :=
  if serves ReqWriteFile h w
  then ((true, Z.of_nat (length bs)),
        mkWorld (present w) (live w) (fresh w) (line w) (tmo w)
                (rx w) (rx_fault w) (tx w ++ bs) (refused w))
  else ((false, 0), w).

Definition driver : Driver World :=
  mkDriver World CreateFile GetCommState SetCommState SetCommTimeouts
           CloseHandle ReadFile WriteFile.

(** A machine with the devices [names], the peer's bytes [incoming], a read
    fault after [fault] served reads, and the requests [no] switched off. *)
Definition machine (names : list bytes) (incoming : bytes)
    (fault : option nat) (no : list Request) : World :=
  mkWorld names [] 100 (mkDCB 28 9600 1 0 2048 512 8 0 0 17 19 0 0 0 0)
          COMMTIMEOUTS_zero incoming fault [] no.

End Sim.

Definition CR : ascii := "013"%char.
Definition LF : ascii := "010"%char.

(** ** Concrete machines and sessions *)

(** The peer's bytes: HELLO, carriage return, line feed, WORLD. *)
Definition peer_text : bytes := lit "HELLO" ++ [CR; LF] ++ lit "WORLD".

(** A caller buffer of [n] bytes, filled with the letter x. *)
Definition scratch (n : nat) : bytes := repeat "x"%char n.

(** One device, COM3, whose peer has sent [peer_text]. *)
Definition desk : Sim.World := Sim.machine [lit "COM3"] peer_text None [].

(** The same device with a driver that fails the fourth read. *)
Definition flaky_desk : Sim.World :=
  Sim.machine [lit "COM3"] peer_text (Some 3%nat) [].

(** Two devices, COM1 and COM7. *)
Definition rack : Sim.World :=
  Sim.machine [lit "COM1"; lit "COM7"] [] None [].

(** Opening COM3 with 9600 baud, 8 data bits, no parity, one stop bit on a
    freshly started program. *)
Definition open_COM3 (w : Sim.World) : Z * State Sim.World :=
  open Sim.driver status_dense (lit "COM3") 9600 8 0 0 (initial w).

Definition session : State Sim.World := snd (open_COM3 desk).
Definition flaky_session : State Sim.World := snd (open_COM3 flaky_desk).

(** The session after [open] and then [close]. *)
Definition closed_session : State Sim.World :=
  snd (close Sim.driver status_dense session).

(** ** Vocabulary for sessions and probes *)

(** [st'] holds the same handle and line state as [st] and the process owns
    the same handles. *)
Definition same_session {W : Type} (st st' : State W) : Prop :=
  hSerialPort st' = hSerialPort st /\
  dcbSerialParams st' = dcbSerialParams st /\
  owned (calls st') = owned (calls st).

(** The calls that move data or set timeouts: [SetCommTimeouts], [ReadFile]
    and [WriteFile]. *)
Definition is_transfer (c : Call) : bool :=
  match c with
  | CallSetCommTimeouts _ _ _ => true
  | CallReadFile _ _ _ _ => true
  | CallWriteFile _ _ _ _ => true
  | _ => false
  end.

(** From [st] to [st'] the log grew by transfer calls only: no [CreateFile],
    no [CloseHandle], no [GetCommState], no [SetCommState] was made. *)
Definition only_transfers {W : Type} (st st' : State W) : Prop :=
  exists made,
    calls st' = calls st ++ made /\ forallb is_transfer made = true.

(** The device name probed in iteration [i] of [getAvailablePorts]. *)
Definition port_name (i : nat) : bytes := lit "COM" ++ to_string i.

(** The two calls of iteration [i], given the handle that came back and the
    answer to giving it up. *)
Definition probe_calls (ia : nat * (HANDLE * bool)) : list Call :=
  [CallCreateFile (port_name (fst ia)) 0 (fst (snd ia));
   CallCloseHandle (fst (snd ia)) (snd (snd ia))].

(** The names among [idxs] whose probe came back with a usable handle. *)
Definition opened_names (ias : list (nat * (HANDLE * bool))) : list bytes :=
  map (fun ia => port_name (fst ia))
      (filter (fun ia => negb (fst (snd ia) =? INVALID_HANDLE_VALUE)) ias).

(** The session after opening COM1 on [rack]. *)
Definition rack_session : State Sim.World :=
  snd (open Sim.driver status_dense (lit "COM1") 9600 8 0 0 (initial rack)).

(** * Properties *)

(** ** Conversions, byte strings, the handle ledger *)

Ltac run := unfold bind, get, modify, ret; cbn [fst snd].

Lemma DWORD_of_int_small z : 0 <= z < 2 ^ 32 -> DWORD_of_int z = z.
Proof. intros H. unfold DWORD_of_int. apply Z.mod_small. exact H. Qed.


Lemma int_of_unsigned_small z : 0 <= z <= INT_MAX -> int_of_unsigned z = z.
Proof.
  unfold int_of_unsigned, INT_MAX. intros H.
  rewrite Z.mod_small; lia.
Qed.

Lemma owned_app cs ds : owned (cs ++ ds) = fold_left owned_step ds (owned cs).
Proof. unfold owned. apply fold_left_app. Qed.

Lemma owned_step_valid acc c :
  ~ In INVALID_HANDLE_VALUE acc -> ~ In INVALID_HANDLE_VALUE (owned_step acc c).
Proof.
  intros Hacc.
  destruct c as [name attrs h | | | | h ok | |]; simpl; try assumption.
  - destruct (Z.eqb_spec h INVALID_HANDLE_VALUE) as [E | E]; [assumption |].
    intros [H | H]; [congruence | contradiction].
  - intros H. apply in_remove in H. tauto.
Qed.

Lemma fold_owned_valid ds : forall acc,
  ~ In INVALID_HANDLE_VALUE acc ->
  ~ In INVALID_HANDLE_VALUE (fold_left owned_step ds acc).
Proof.
  induction ds as [| c ds IH]; intros acc Hacc; simpl; [assumption |].
  apply IH, owned_step_valid, Hacc.
Qed.

(** The ledger never holds the invalid handle value. *)
Lemma owned_valid cs : ~ In INVALID_HANDLE_VALUE (owned cs).
Proof. unfold owned. apply fold_owned_valid. intros []. Qed.

Section Lifecycle.

Context {W : Type} (drv : Driver W) (status : StatusCodes -> Z).

(** An opened session holds a handle that passes the validity test. *)
Lemma opened_valid (st : State W) :
  opened st -> hSerialPort st <> INVALID_HANDLE_VALUE.
Proof.
  unfold opened. intros Hin E. rewrite E in Hin.
  exact (owned_valid _ Hin).
Qed.

Lemma opened_eqb (st : State W) :
  opened st -> (hSerialPort st =? INVALID_HANDLE_VALUE) = false.
Proof. intros H. apply Z.eqb_neq, opened_valid, H. Qed.

Lemma released (h : HANDLE) (acc : list HANDLE) :
  ~ In h (remove Z.eq_dec h acc).
Proof. apply remove_In. Qed.

Lemma open_path port baudrate dataBits parity stopBits (st : State W) :
  OpenPath status port
    (set_line (DWORD_of_int baudrate) (BYTE_of_int dataBits)
              (BYTE_of_int parity) (BYTE_of_int stopBits))
    st
    (snd (open drv status port baudrate dataBits parity stopBits st))
    (fst (open drv status port baudrate dataBits parity stopBits st)).
Proof.
  unfold open, CreateFile, GetCommState, SetCommState, SetCommTimeouts,
    CloseHandle. run. cbn.
  destruct (drv_CreateFile drv port FILE_ATTRIBUTE_NORMAL (world st))
    as [h w1] eqn:E1. cbn.
  destruct (Z.eqb_spec h INVALID_HANDLE_VALUE) as [Eh | Eh]; cbn.
  { subst h. apply NoHandle; reflexivity. }
  destruct (drv_GetCommState drv h _ w1) as [[ok2 d] w2] eqn:E2. cbn.
  destruct ok2; cbn.
  2:{ destruct (drv_CloseHandle drv h w2) as [okc wc] eqn:Ec. cbn.
      apply NoState with (h := h) (d := d) (okc := okc); auto.
      cbn. rewrite <- !app_assoc. reflexivity. }
  destruct (drv_SetCommState drv h _ w2) as [ok3 w3] eqn:E3. cbn.
  destruct ok3; cbn.
  2:{ destruct (drv_CloseHandle drv h w3) as [okc wc] eqn:Ec. cbn.
      apply StateRefused with (h := h) (d := d) (okc := okc); auto.
      cbn. rewrite <- !app_assoc. reflexivity. }
  destruct (drv_SetCommTimeouts drv h _ w3) as [ok4 w4] eqn:E4. cbn.
  destruct ok4; cbn.
  2:{ destruct (drv_CloseHandle drv h w4) as [okc wc] eqn:Ec. cbn.
      apply TimeoutsRefused with (h := h) (d := d) (okc := okc); auto.
      cbn. rewrite <- !app_assoc. reflexivity. }
  apply AllAccepted with (h := h) (d := d); auto.
  cbn. rewrite <- !app_assoc. reflexivity.
Qed.




End Lifecycle.

(** ** Timed read and write *)

Section Transfer.

Context {W : Type} (drv : Driver W) (status : StatusCodes -> Z).
Hypothesis drv_ok : DriverOk drv.

Lemma memcpy_all (dst src : bytes) :
  memcpy dst src (length src) = src ++ skipn (length src) dst.
Proof. unfold memcpy. rewrite firstn_all. reflexivity. Qed.

(** With the handle at [INVALID_HANDLE_VALUE] the guarded functions return
    at once: no driver call, no byte moved, nothing changed. *)
Lemma guarded_on_invalid_handle buffer bufferSize timeout multiplier
    searchString (st : State W) :
  hSerialPort st = INVALID_HANDLE_VALUE ->
  read drv status buffer bufferSize timeout multiplier st
    = (status INVALID_HANDLE_ERROR, buffer, st)
  /\ readUntil drv status buffer bufferSize timeout multiplier searchString st
    = (status INVALID_HANDLE_ERROR, buffer, st)
  /\ close drv status st = (status INVALID_HANDLE_ERROR, st).
Proof.
  intros E. unfold read, readUntil, close. run. rewrite E. cbn. auto.
Qed.

(** C7, amended. For non-negative [bufferSize], [timeout] and [multiplier]:
    on an opened session [read] puts the timeout argument into the
    inter-byte interval and the total read constant and the multiplier
    argument into the per-byte multiplier, and commits them; if the driver
    turns the commit down it returns SET_TIMEOUT_ERROR without reading.
    Otherwise it issues exactly one driver read, for [bufferSize] bytes, and
    returns the number of bytes the driver delivered, which lies between 0
    and [bufferSize], or READ_ERROR when the driver reports failure. *)
Theorem read_opened buffer bufferSize timeout multiplier (st : State W) :
  opened st ->
  0 <= bufferSize <= INT_MAX ->
  0 <= timeout <= INT_MAX -> 0 <= multiplier <= INT_MAX ->
  let r := fst (fst (read drv status buffer bufferSize timeout multiplier st)) in
  let buffer' := snd (fst (read drv status buffer bufferSize timeout multiplier st)) in
  let st' := snd (read drv status buffer bufferSize timeout multiplier st) in
  let h := hSerialPort st in
  let t := timeouts st' in
  ReadIntervalTimeout t = timeout /\
  ReadTotalTimeoutConstant t = timeout /\
  ReadTotalTimeoutMultiplier t = multiplier /\
  WriteTotalTimeoutConstant t = WriteTotalTimeoutConstant (timeouts st) /\
  WriteTotalTimeoutMultiplier t = WriteTotalTimeoutMultiplier (timeouts st) /\
  ((calls st' = calls st ++ [CallSetCommTimeouts h t false] /\
    r = status SET_TIMEOUT_ERROR /\ buffer' = buffer)
   \/ (exists got,
        calls st' = calls st ++
          [CallSetCommTimeouts h t true; CallReadFile h bufferSize false got] /\
        r = status READ_ERROR)
   \/ (exists got,
        calls st' = calls st ++
          [CallSetCommTimeouts h t true; CallReadFile h bufferSize true got] /\
        r = Z.of_nat (length got) /\ 0 <= r <= bufferSize /\
        buffer' = got ++ skipn (length got) buffer)).
Proof.
  intros Hop Hn Ht Hm. unfold INT_MAX in *.
  unfold read, SetCommTimeouts, ReadFile. run.
  rewrite (opened_eqb st Hop). cbn.
  rewrite !DWORD_of_int_small by lia.
  destruct (drv_SetCommTimeouts drv (hSerialPort st) _ (world st))
    as [ok1 w1] eqn:E1. cbn.
  destruct ok1; cbn.
  2:{ repeat split; try reflexivity. left. auto. }
  pose proof (ReadFile_bound drv drv_ok (hSerialPort st) bufferSize w1
                (proj1 Hn)) as Hb.
  destruct (drv_ReadFile drv (hSerialPort st) bufferSize w1)
    as [[ok2 got] w2] eqn:E2. cbn in Hb |- *.
  destruct ok2; cbn; repeat split; try reflexivity; right.
  - right. exists got. rewrite <- app_assoc. cbn.
    rewrite int_of_unsigned_small by (unfold INT_MAX; lia).
    rewrite memcpy_all. repeat split; try reflexivity; lia.
  - left. exists got. rewrite <- app_assoc. auto.
Qed.

(** C8, amended. For non-negative [bufferSize], [timeout] and [multiplier]:
    [write] puts the timeout argument into the total write constant and
    the multiplier argument into the total write multiplier and commits
    them; if the driver turns the commit down it returns SET_TIMEOUT_ERROR
    without writing. Otherwise it issues exactly one driver write, offering
    the first [bufferSize] bytes of the caller's buffer, and returns the
    number of bytes the driver reports written, or WRITE_ERROR when the
    driver reports failure. *)
Theorem write_commits_then_writes buffer bufferSize timeout multiplier
    (st : State W) :
  0 <= bufferSize <= INT_MAX ->
  0 <= timeout <= INT_MAX -> 0 <= multiplier <= INT_MAX ->
  let r := fst (write drv status buffer bufferSize timeout multiplier st) in
  let st' := snd (write drv status buffer bufferSize timeout multiplier st) in
  let h := hSerialPort st in
  let t := timeouts st' in
  let offered := firstn (Z.to_nat bufferSize) buffer in
  WriteTotalTimeoutConstant t = timeout /\
  WriteTotalTimeoutMultiplier t = multiplier /\
  ReadIntervalTimeout t = ReadIntervalTimeout (timeouts st) /\
  ReadTotalTimeoutConstant t = ReadTotalTimeoutConstant (timeouts st) /\
  ReadTotalTimeoutMultiplier t = ReadTotalTimeoutMultiplier (timeouts st) /\
  ((calls st' = calls st ++ [CallSetCommTimeouts h t false] /\
    r = status SET_TIMEOUT_ERROR)
   \/ (exists k,
        calls st' = calls st ++
          [CallSetCommTimeouts h t true; CallWriteFile h offered false k] /\
        r = status WRITE_ERROR)
   \/ (exists k,
        calls st' = calls st ++
          [CallSetCommTimeouts h t true; CallWriteFile h offered true k] /\
        r = k /\ 0 <= k <= bufferSize)).
Proof.
  intros Hn Ht Hm. unfold INT_MAX in *.
  unfold write, SetCommTimeouts, WriteFile. run. cbn.
  rewrite !DWORD_of_int_small by lia.
  destruct (drv_SetCommTimeouts drv (hSerialPort st) _ (world st))
    as [ok1 w1] eqn:E1. cbn.
  destruct ok1; cbn.
  2:{ repeat split; try reflexivity. left. auto. }
  pose proof (WriteFile_bound drv drv_ok (hSerialPort st)
                (firstn (Z.to_nat bufferSize) buffer) w1) as Hb.
  destruct (drv_WriteFile drv (hSerialPort st) _ w1)
    as [[ok2 k] w2] eqn:E2. cbn in Hb |- *.
  assert (Hk : 0 <= k <= bufferSize).
  { pose proof (firstn_le_length (Z.to_nat bufferSize) buffer). lia. }
  destruct ok2; cbn; repeat split; try reflexivity; right.
  - right. exists k. rewrite <- app_assoc. cbn.
    rewrite int_of_unsigned_small by (unfold INT_MAX; lia).
    repeat split; try reflexivity; lia.
  - left. exists k. rewrite <- app_assoc. auto.
Qed.

End Transfer.

(** ** Substring search *)

Lemma prefixb_spec (p l : bytes) :
  prefixb p l = true <-> exists b, l = p ++ b.
Proof.
  revert l. induction p as [| a p IH]; intros l; cbn.
  - split; [intros _; exists l; reflexivity | reflexivity].
  - destruct l as [| c l].
    + split; [discriminate | intros [b Hb]; discriminate].
    + rewrite andb_true_iff, IH. split.
      * intros [Hac [b Hb]]. apply Ascii.eqb_eq in Hac. subst. eauto.
      * intros [b Hb]. injection Hb as -> ->. split; [apply Ascii.eqb_refl | eauto].
Qed.

Lemma occurs_cons (s : bytes) c (l : bytes) :
  Occurs s (c :: l) <-> (exists b, c :: l = s ++ b) \/ Occurs s l.
Proof.
  unfold Occurs. split.
  - intros (a & b & E). destruct a as [| x a].
    + left. exists b. exact E.
    + right. injection E as _ E. exists a, b. exact E.
  - intros [[b E] | (a & b & E)].
    + exists [], b. exact E.
    + exists (c :: a), b. cbn. rewrite E. reflexivity.
Qed.

Lemma find_from_None (l s : bytes) : forall pos,
  find_from l s pos = None <-> ~ Occurs s l.
Proof.
  induction l as [| c l IH]; intros pos; cbn [find_from].
  - destruct (prefixb s []) eqn:E.
    + split; [discriminate |]. intros H. exfalso. apply H.
      apply prefixb_spec in E. destruct E as [b E]. exists [], b. exact E.
    + split; [| reflexivity]. intros _ (a & b & H).
      destruct a; [| discriminate].
      assert (prefixb s [] = true) by (apply prefixb_spec; exists b; exact H).
      congruence.
  - destruct (prefixb s (c :: l)) eqn:E.
    + split; [discriminate |]. intros H. exfalso. apply H.
      apply occurs_cons. left. apply prefixb_spec. exact E.
    + rewrite IH, occurs_cons. split.
      * intros H [Hp | Ho]; [| tauto].
        apply prefixb_spec in Hp. congruence.
      * tauto.
Qed.

(** [find] answers [npos] exactly when the string does not occur. *)
Lemma find_None (l s : bytes) : find l s = None <-> ~ Occurs s l.
Proof. apply find_from_None. Qed.

Lemma find_from_Some (l s : bytes) : forall pos p,
  find_from l s pos = Some p -> Occurs s l.
Proof.
  induction l as [| c l IH]; intros pos p; cbn [find_from].
  - destruct (prefixb s []) eqn:E; [| discriminate]. intros _.
    apply prefixb_spec in E. destruct E as [b E]. exists [], b. exact E.
  - destruct (prefixb s (c :: l)) eqn:E; intros H; apply occurs_cons.
    + left. apply prefixb_spec. exact E.
    + right. exact (IH _ _ H).
Qed.

Lemma find_Some (l s : bytes) p : find l s = Some p -> Occurs s l.
Proof. apply find_from_Some. Qed.

(** ** Read until delimiter *)

Section ReadUntil.

Context {W : Type} (drv : Driver W) (status : StatusCodes -> Z).
Hypothesis drv_ok : DriverOk drv.

Lemma received_cons a (answers : list (bool * bytes)) :
  received (a :: answers) = snd a ++ received answers.
Proof. reflexivity. Qed.

Lemma received_one_byte (answers : list (bool * bytes)) :
  Forall one_byte answers -> length (received answers) = length answers.
Proof.
  induction 1 as [| a l [_ Ha] _ IH]; [reflexivity |].
  rewrite received_cons, length_app, Ha, IH. reflexivity.
Qed.

(** A run of the loop: [served] are the reads that delivered a byte, [last]
    is the read, if any, on which the loop was left. *)
Lemma readUntil_loop_run n searchString : forall (st st' : State W) e,
  readUntil_loop drv n searchString st = (e, st') ->
  let h := hSerialPort st in
  let delimiter := string_of_cstr searchString in
  exists served last,
    calls st' = calls st ++ map (read_call h) (served ++ last) /\
    (length (served ++ last) <= n)%nat /\
    Forall one_byte served /\
    data st' = data st ++ received served /\
    (forall k, (k < length (served ++ last))%nat ->
               ~ Occurs delimiter (data st ++ received (firstn k served))) /\
    ((last = [] /\ e = FellThrough /\
      (Occurs delimiter (data st') \/ length served = n))
     \/ (last = [(true, [])] /\ e = FellThrough)
     \/ (exists got, last = [(false, got)] /\ e = ReadFailed)).
Proof.
  induction n as [| n IH]; intros st st' e H h delimiter; subst h delimiter.
  - cbn in H. injection H as <- <-.
    exists [], []. cbn. rewrite !app_nil_r.
    repeat split; auto using Forall_nil; try lia.
  - cbn [readUntil_loop] in H. unfold ReadFile, bind, get, modify, ret in H.
    cbn [fst snd] in H.
    destruct (find (data st) (string_of_cstr searchString)) as [p |] eqn:F.
    { injection H as <- <-. exists [], []. cbn. rewrite !app_nil_r.
      repeat split; auto using Forall_nil; try lia.
      left. repeat split. left. exact (find_Some _ _ _ F). }
    apply find_None in F.
    pose proof (ReadFile_bound drv drv_ok (hSerialPort st) 1 (world st)
                  Z.le_0_1) as Hb.
    destruct (drv_ReadFile drv (hSerialPort st) 1 (world st))
      as [[ok got] w1] eqn:E1. cbn in Hb, H.
    destruct ok; cbn in H.
    2:{ injection H as <- <-. exists [], [(false, got)]. cbn.
        rewrite !app_nil_r. repeat split; auto using Forall_nil; try lia.
        + intros k Hk. assert (k = 0%nat) as -> by lia. cbn.
          rewrite app_nil_r. exact F.
        + right; right. eauto. }
    destruct (Nat.eqb_spec (length got) 0) as [L0 | L0].
    { injection H as <- <-. destruct got; [| discriminate].
      exists [], [(true, [])]. cbn.
      rewrite !app_nil_r. repeat split; auto using Forall_nil; try lia.
      intros k Hk. assert (k = 0%nat) as -> by lia. cbn.
      rewrite app_nil_r. exact F. }
    assert (L1 : length got = 1%nat) by lia.
    apply IH in H. cbn [hSerialPort calls data set_data called] in H.
    destruct H as (served & last & Hc & Hl & Hs & Hd & Hk & Hx).
    exists ((true, got) :: served), last.
    repeat split.
    + rewrite Hc, <- app_assoc. reflexivity.
    + cbn. lia.
    + constructor; [split; [reflexivity | exact L1] | exact Hs].
    + rewrite Hd, received_cons, <- app_assoc. reflexivity.
    + intros [| k] Hlt.
      * cbn. rewrite app_nil_r. exact F.
      * cbn [firstn]. rewrite received_cons, app_assoc. apply Hk.
        cbn in Hlt. lia.
    + destruct Hx as [(-> & -> & Hx) | [(-> & ->) | (g & -> & ->)]].
      * left. repeat split. destruct Hx as [Hx | Hx]; [left; exact Hx |].
        right. cbn. lia.
      * right; left. auto.
      * right; right. eauto.
Qed.

Lemma memcpy_c_str (dst acc : bytes) :
  memcpy dst (c_str acc) (length acc + 1)
  = acc ++ [zero] ++ skipn (length acc + 1) dst.
Proof.
  unfold memcpy, c_str.
  replace (length acc + 1)%nat with (length (acc ++ [zero]))
    by (rewrite length_app; reflexivity).
  rewrite firstn_all, <- app_assoc. reflexivity.
Qed.

(** The four ways through [readUntil]. *)
Lemma readUntil_run buffer bufferSize timeout multiplier searchString
    (st st' : State W) r buffer' :
  readUntil drv status buffer bufferSize timeout multiplier searchString st
    = (r, buffer', st') ->
  let h := hSerialPort st in
  let t := set_read_timeouts (DWORD_of_int timeout) (DWORD_of_int timeout)
                             (DWORD_of_int multiplier) (timeouts st) in
  let delimiter := string_of_cstr searchString in
  let copied :=
    r = int_of_unsigned (Z.of_nat (length (data st'))) /\
    buffer' = data st' ++ [zero] ++ skipn (length (data st') + 1) buffer in
  (h = INVALID_HANDLE_VALUE /\ r = status INVALID_HANDLE_ERROR /\
   buffer' = buffer /\ st' = st)
  \/ (h <> INVALID_HANDLE_VALUE /\
      fst (drv_SetCommTimeouts drv h t (world st)) = false /\
      r = status SET_TIMEOUT_ERROR /\ buffer' = buffer /\
      calls st' = calls st ++ [CallSetCommTimeouts h t false])
  \/ (h <> INVALID_HANDLE_VALUE /\
      fst (drv_SetCommTimeouts drv h t (world st)) = true /\
      exists served last,
        calls st' = calls st ++
          CallSetCommTimeouts h t true :: map (read_call h) (served ++ last) /\
        (length (served ++ last) <= Z.to_nat bufferSize)%nat /\
        Forall one_byte served /\
        data st' = received served /\
        (forall k, (k < length (served ++ last))%nat ->
                   ~ Occurs delimiter (received (firstn k served))) /\
        ((last = [] /\ copied /\
          (Occurs delimiter (data st') \/
           length served = Z.to_nat bufferSize))
         \/ (last = [(true, [])] /\ copied)
         \/ (exists got, last = [(false, got)] /\
                         r = status READ_ERROR /\ buffer' = buffer))).
Proof.
  intros H h t delimiter copied. subst h t delimiter copied.
  unfold readUntil, SetCommTimeouts in H.
  unfold bind at 1 2 3 4, get, modify in H. cbn [fst snd] in H.
  destruct (Z.eqb_spec (hSerialPort st) INVALID_HANDLE_VALUE) as [Eh | Eh].
  { injection H as <- <- <-. left. auto. }
  right.
  cbn [timeouts hSerialPort world set_timeouts] in H.
  destruct (drv_SetCommTimeouts drv (hSerialPort st) _ (world st))
    as [ok1 w1] eqn:E1.
  destruct ok1; cbn [negb fst] in H |- *.
  2:{ injection H as <- <- <-. left. cbn. auto. }
  right. split; [exact Eh |]. split; [reflexivity |].
  unfold bind, modify, get, ret in H. cbn [fst snd] in H.
  match type of H with
  | context [readUntil_loop drv ?n ?s ?x] =>
      destruct (readUntil_loop drv n s x) as [e st1] eqn:EL
  end.
  apply readUntil_loop_run in EL.
  cbn [hSerialPort calls data called set_data set_timeouts] in EL.
  destruct EL as (served & last & Hc & Hl & Hs & Hd & Hk & Hx).
  cbn [app] in Hd, Hk.
  exists served, last.
  destruct e; injection H as <- <- <-.
  - rewrite memcpy_c_str.
    repeat split; try assumption.
    + rewrite Hc, <- app_assoc. reflexivity.
    + destruct Hx as [(-> & _ & Hx) | [(-> & _) | (g & _ & Hx)]];
        [left | right; left | discriminate Hx]; auto.
  - repeat split; try assumption.
    + rewrite Hc, <- app_assoc. reflexivity.
    + destruct Hx as [(_ & Hx & _) | [(_ & Hx) | (g & -> & _)]];
        [discriminate Hx | discriminate Hx | right; right; eauto].
Qed.


(** C3. Whenever [readUntil], called with [0 <= bufferSize], returns a
    non-negative value, what it wrote to the caller's buffer is a payload of
    at most [bufferSize] bytes followed by exactly one zero byte, and the
    value returned is the number of payload bytes. *)
Theorem readUntil_payload_bounded
    buffer bufferSize timeout multiplier searchString (st : State W) :
  status_signed status ->
  0 <= bufferSize <= INT_MAX ->
  let out :=
    readUntil drv status buffer bufferSize timeout multiplier searchString st in
  let r := fst (fst out) in
  let buffer' := snd (fst out) in
  0 <= r ->
  exists payload,
    Z.of_nat (length payload) <= bufferSize /\
    buffer' = payload ++ [zero] ++ skipn (length payload + 1) buffer /\
    r = Z.of_nat (length payload).
Proof.
  intros [_ Hneg] Hn out r buffer'. subst r buffer' out.
  destruct (readUntil drv status buffer bufferSize timeout multiplier
              searchString st) as [[r buffer'] st'] eqn:E.
  cbn [fst snd]. intros Hr.
  apply readUntil_run in E.
  destruct E as [(_ & Er & _) | [(_ & _ & Er & _) | (_ & _ & E)]].
  { exfalso. specialize (Hneg INVALID_HANDLE_ERROR). rewrite <- Er in Hneg.
    assert (r < 0) by (apply Hneg; discriminate). lia. }
  { exfalso. specialize (Hneg SET_TIMEOUT_ERROR). rewrite <- Er in Hneg.
    assert (r < 0) by (apply Hneg; discriminate). lia. }
  destruct E as (served & last & _ & Hl & Hs & Hd & _ & Hx).
  assert (Hlen : Z.of_nat (length (data st')) <= bufferSize).
  { rewrite Hd, (received_one_byte served Hs).
    rewrite length_app in Hl. lia. }
  rewrite int_of_unsigned_small in Hx by lia.
  exists (data st').
  destruct Hx as [(_ & (Ecp & Eb) & _) | [(_ & Ecp & Eb) | (g & _ & Er & _)]];
    auto.
  exfalso. specialize (Hneg READ_ERROR). rewrite <- Er in Hneg.
  assert (r < 0) by (apply Hneg; discriminate). lia.
Qed.

(** C10. Whenever [readUntil] returns a negative value the caller's buffer
    is exactly as it was: bytes are copied to it only on the way out that
    returns the accumulator's length, which is never negative, however many
    bytes had been accumulated before a failure. *)
Theorem readUntil_error_keeps_buffer
    buffer bufferSize timeout multiplier searchString (st : State W) :
  bufferSize <= INT_MAX ->
  let out :=
    readUntil drv status buffer bufferSize timeout multiplier searchString st in
  fst (fst out) < 0 ->
  snd (fst out) = buffer.
Proof.
  intros Hn out. subst out.
  destruct (readUntil drv status buffer bufferSize timeout multiplier
              searchString st) as [[r buffer'] st'] eqn:E.
  cbn [fst snd]. intros Hr.
  apply readUntil_run in E.
  destruct E as [(_ & _ & Eb & _) | [(_ & _ & _ & Eb & _) | (_ & _ & E)]];
    try exact Eb.
  destruct E as (served & last & _ & Hl & Hs & Hd & _ & Hx).
  assert (Hlen : 0 <= Z.of_nat (length (data st')) <= INT_MAX).
  { rewrite Hd, (received_one_byte served Hs).
    rewrite length_app in Hl. unfold INT_MAX in *. lia. }
  rewrite int_of_unsigned_small in Hx by lia.
  destruct Hx as [(_ & (Ecp & _) & _) | [(_ & Ecp & _) | (g & _ & _ & Eb)]];
    [lia | lia | exact Eb].
Qed.

End ReadUntil.

(** ** The simulated driver keeps the contract *)

Lemma sim_driver_ok : DriverOk Sim.driver.
Proof.
  split.
  - intros h n w Hn. cbn. unfold Sim.ReadFile.
    destruct (Sim.is_live h w); [| cbn; lia].
    assert (Hf : Z.of_nat (length (firstn (Z.to_nat n) (Sim.rx w))) <= n).
    { pose proof (firstn_le_length (Z.to_nat n) (Sim.rx w)). lia. }
    destruct (Sim.rx_fault w) as [[| k] |]; cbn; lia.
  - intros h bs w. cbn. unfold Sim.WriteFile.
    destruct (Sim.serves Sim.ReqWriteFile h w); cbn; lia.
Qed.

Lemma status_dense_signed : status_signed status_dense.
Proof.
  split; [reflexivity |].
  intros c Hc. destruct c; cbn; try lia. contradiction.
Qed.

Lemma session_opened : opened session.
Proof. unfold opened. vm_compute. left. reflexivity. Qed.

(** ** The handle variable after [close] *)

Section StaleHandle.

Context {W : Type} (drv : Driver W) (status : StatusCodes -> Z).

(** [close] never assigns the handle variable. *)
Lemma close_keeps_handle (st : State W) :
  hSerialPort (snd (close drv status st)) = hSerialPort st.
Proof.
  unfold close, CloseHandle, bind, get, ret. cbn [fst snd].
  destruct (hSerialPort st =? INVALID_HANDLE_VALUE); [reflexivity |].
  destruct (drv_CloseHandle drv (hSerialPort st) (world st)) as [[|] w];
    reflexivity.
Qed.

(** On an opened session [close] hands the handle to the driver once and
    answers by what the driver said; the session is not opened afterwards. *)
Lemma close_opened (st : State W) :
  opened st ->
  exists ok,
    calls (snd (close drv status st))
      = calls st ++ [CallCloseHandle (hSerialPort st) ok] /\
    fst (close drv status st)
      = status (if ok then SUCCESS else CLOSE_HANDLE_ERROR) /\
    ~ opened (snd (close drv status st)).
Proof.
  intros Hop.
  unfold opened, close, CloseHandle, bind, get, ret. cbn [fst snd].
  rewrite (opened_eqb st Hop).
  destruct (drv_CloseHandle drv (hSerialPort st) (world st)) as [ok w].
  exists ok.
  destruct ok; cbn [negb fst snd calls hSerialPort called];
    (repeat split; [rewrite owned_app; cbn; apply released]).
Qed.

(** X18. [write] has no guard: whatever the handle variable holds, its first
    step is a timeout commit on that handle. *)
Lemma write_unguarded buffer bufferSize timeout multiplier (st : State W) :
  exists t ok rest,
    calls (snd (write drv status buffer bufferSize timeout multiplier st))
      = calls st ++ CallSetCommTimeouts (hSerialPort st) t ok :: rest.
Proof.
  unfold write, SetCommTimeouts, WriteFile, bind, get, modify, ret.
  cbn [fst snd]. cbn.
  destruct (drv_SetCommTimeouts drv (hSerialPort st) _ (world st)) as [ok w1].
  destruct ok; cbn.
  - destruct (drv_WriteFile drv (hSerialPort st) _ w1) as [[ok2 k] w2].
    eexists _, true, [_]. destruct ok2; cbn; rewrite <- app_assoc; reflexivity.
  - eexists _, false, []. reflexivity.
Qed.

(** X19. After [close] on an opened session the session is not opened, and
    [read] still goes to the driver with the handle that was given up. *)
Lemma read_after_close_reaches_driver
    buffer bufferSize timeout multiplier (st : State W) :
  opened st ->
  ~ opened (snd (close drv status st)) /\
  exists t ok rest,
    calls (snd (read drv status buffer bufferSize timeout multiplier
                  (snd (close drv status st))))
      = calls (snd (close drv status st))
          ++ CallSetCommTimeouts (hSerialPort st) t ok :: rest.
Proof.
  intros Hop. destruct (close_opened st Hop) as (okc & _ & _ & Hcl).
  split; [exact Hcl |].
  pose proof (close_keeps_handle st) as Hh.
  destruct (close drv status st) as [rc st1]. cbn [snd] in *.
  unfold read, SetCommTimeouts, ReadFile. run.
  rewrite Hh, (opened_eqb st Hop). cbn. rewrite Hh.
  match goal with
  | |- context [drv_SetCommTimeouts drv ?h ?t ?w] =>
      destruct (drv_SetCommTimeouts drv h t w) as [ok w1]
  end.
  destruct ok; cbn.
  - match goal with
    | |- context [drv_ReadFile drv ?h ?n ?w] =>
        destruct (drv_ReadFile drv h n w) as [[ok2 got] w2]
    end.
    eexists _, true, [_]. destruct ok2; cbn; rewrite <- app_assoc; reflexivity.
  - eexists _, false, []. reflexivity.
Qed.

End StaleHandle.

(** ** The functions on concrete machines *)

Ltac differ := let H := fresh in intro H; vm_compute in H; discriminate H.

(** C1, where the code departs from it. A session that was opened and then
    closed with SUCCESS is not opened, yet the handle variable still holds
    the released handle, so the guard of [read] and [readUntil] lets the call
    through and [write] has no guard: all three go to the driver and return
    SET_TIMEOUT_ERROR, not INVALID_HANDLE_ERROR. The same happens on a
    session that was never opened, whose handle variable is [NULL]. *)
Theorem closed_session_passes_guard :
  fst (open_COM3 desk) = status_dense SUCCESS /\
  fst (close Sim.driver status_dense session) = status_dense SUCCESS /\
  ~ opened closed_session /\
  hSerialPort closed_session <> INVALID_HANDLE_VALUE /\
  fst (fst (read Sim.driver status_dense (scratch 16) 16 50 10 closed_session))
    = status_dense SET_TIMEOUT_ERROR /\
  fst (fst (readUntil Sim.driver status_dense (scratch 17) 16 50 10
              [CR; LF; zero] closed_session))
    = status_dense SET_TIMEOUT_ERROR /\
  fst (write Sim.driver status_dense (lit "PING") 4 50 10 closed_session)
    = status_dense SET_TIMEOUT_ERROR /\
  ~ opened (initial desk) /\
  fst (fst (read Sim.driver status_dense (scratch 16) 16 50 10 (initial desk)))
    = status_dense SET_TIMEOUT_ERROR /\
  status_dense SET_TIMEOUT_ERROR <> status_dense INVALID_HANDLE_ERROR.
Proof.
  repeat split; try (vm_compute; reflexivity); try differ.
  - unfold opened. vm_compute. intros H. exact H.
  - unfold opened. vm_compute. intros H. exact H.
Qed.

(** C9, where the code departs from it. [close] on a session that is not
    opened does not return INVALID_HANDLE_ERROR: after a successful [close],
    and likewise before any [open], the handle variable differs from
    [INVALID_HANDLE_VALUE], so the handle is passed to [CloseHandle] again
    and the driver's refusal comes back as CLOSE_HANDLE_ERROR. *)
Theorem close_on_closed_session_reaches_driver :
  ~ opened closed_session /\
  fst (close Sim.driver status_dense closed_session)
    = status_dense CLOSE_HANDLE_ERROR /\
  calls (snd (close Sim.driver status_dense closed_session))
    = calls closed_session ++ [CallCloseHandle 100 false] /\
  ~ opened (initial desk) /\
  fst (close Sim.driver status_dense (initial desk))
    = status_dense CLOSE_HANDLE_ERROR /\
  calls (snd (close Sim.driver status_dense (initial desk)))
    = [CallCloseHandle NULL false] /\
  status_dense CLOSE_HANDLE_ERROR <> status_dense INVALID_HANDLE_ERROR.
Proof.
  repeat split; try (vm_compute; reflexivity); try differ.
  - unfold opened. vm_compute. intros H. exact H.
  - unfold opened. vm_compute. intros H. exact H.
Qed.

(** C4, where the code departs from it. With COM1 and COM7 present and the
    two-byte separator comma-space, the buffer receives the joined names
    followed by a comma: only one byte of the trailing separator was removed.
    With the empty separator the last byte of the last name is removed. *)
Theorem getAvailablePorts_erases_one_byte :
  fst (getAvailablePorts Sim.driver status_dense (scratch 16) 16
         (lit ", " ++ [zero]) (initial rack))
    = (2, lit "COM1, COM7," ++ [zero] ++ scratch 4) /\
  fst (getAvailablePorts Sim.driver status_dense (scratch 16) 16
         [zero] (initial rack))
    = (2, lit "COM1COM" ++ [zero] ++ scratch 8).
Proof. split; vm_compute; reflexivity. Qed.


(** C7 at [read(buf, 16, 50, 10)] on the opened [session]. *)
Lemma read_opened_witness :
  opened session /\
  ReadIntervalTimeout
    (timeouts (snd (read Sim.driver status_dense (scratch 16) 16 50 10 session)))
    = 50 /\
  ReadTotalTimeoutConstant
    (timeouts (snd (read Sim.driver status_dense (scratch 16) 16 50 10 session)))
    = 50 /\
  ReadTotalTimeoutMultiplier
    (timeouts (snd (read Sim.driver status_dense (scratch 16) 16 50 10 session)))
    = 10.
Proof.
  assert (Hn : 0 <= 16 <= INT_MAX) by (unfold INT_MAX; lia).
  assert (Ht : 0 <= 50 <= INT_MAX) by (unfold INT_MAX; lia).
  assert (Hm : 0 <= 10 <= INT_MAX) by (unfold INT_MAX; lia).
  destruct (read_opened Sim.driver status_dense sim_driver_ok (scratch 16)
              16 50 10 session session_opened Hn Ht Hm)
    as (H1 & H2 & H3 & _).
  repeat split; try assumption. apply session_opened.
Defined.

(** C8 at a write of four bytes of PING! on the opened [session]. *)
Lemma write_commits_then_writes_witness :
  WriteTotalTimeoutConstant
    (timeouts (snd (write Sim.driver status_dense (lit "PING!") 4 50 10 session)))
    = 50 /\
  WriteTotalTimeoutMultiplier
    (timeouts (snd (write Sim.driver status_dense (lit "PING!") 4 50 10 session)))
    = 10.
Proof.
  assert (Hn : 0 <= 4 <= INT_MAX) by (unfold INT_MAX; lia).
  assert (Ht : 0 <= 50 <= INT_MAX) by (unfold INT_MAX; lia).
  assert (Hm : 0 <= 10 <= INT_MAX) by (unfold INT_MAX; lia).
  destruct (write_commits_then_writes Sim.driver status_dense sim_driver_ok
              (lit "PING!") 4 50 10 session Hn Ht Hm)
    as (H1 & H2 & _).
  split; assumption.
Defined.


(** C3 at [readUntil(buf, 32, 100, 2, CR LF)] on the opened [session]. *)
Lemma readUntil_payload_bounded_witness :
  0 <= fst (fst (readUntil Sim.driver status_dense (scratch 33) 32 100 2
       [CR; LF; zero] session)) /\
  exists payload,
    Z.of_nat (length payload) <= 32 /\
    snd (fst (readUntil Sim.driver status_dense (scratch 33) 32 100 2
       [CR; LF; zero] session))
      = payload ++ [zero] ++ skipn (length payload + 1) (scratch 33) /\
    fst (fst (readUntil Sim.driver status_dense (scratch 33) 32 100 2
       [CR; LF; zero] session)) = Z.of_nat (length payload).
Proof.
  assert (Hn : 0 <= 32 <= INT_MAX) by (unfold INT_MAX; lia).
  assert (Hr : 0 <= fst (fst (readUntil Sim.driver status_dense (scratch 33) 32 100 2
       [CR; LF; zero] session)))
    by (vm_compute; discriminate).
  split; [exact Hr |].
  pose proof (readUntil_payload_bounded Sim.driver status_dense sim_driver_ok
                (scratch 33) 32 100 2 [CR; LF; zero] session
                status_dense_signed Hn) as H.
  cbv zeta in H. exact (H Hr).
Defined.

(** C10 at [readUntil(buf, 32, 100, 2, CR LF)] on [flaky_session], whose fourth read fails. *)
Lemma readUntil_error_keeps_buffer_witness :
  fst (fst (readUntil Sim.driver status_dense (scratch 33) 32 100 2
       [CR; LF; zero] flaky_session)) < 0 /\
  data (snd (readUntil Sim.driver status_dense (scratch 33) 32 100 2
       [CR; LF; zero] flaky_session)) = lit "HEL" /\
  snd (fst (readUntil Sim.driver status_dense (scratch 33) 32 100 2
       [CR; LF; zero] flaky_session)) = scratch 33.
Proof.
  assert (Hn : 32 <= INT_MAX) by (unfold INT_MAX; lia).
  assert (Hr : fst (fst (readUntil Sim.driver status_dense (scratch 33) 32 100 2
       [CR; LF; zero] flaky_session)) < 0)
    by (vm_compute; reflexivity).
  split; [exact Hr | split; [vm_compute; reflexivity |]].
  pose proof (readUntil_error_keeps_buffer Sim.driver status_dense
                sim_driver_ok (scratch 33) 32 100 2 [CR; LF; zero]
                flaky_session Hn) as H.
  cbv zeta in H. exact (H Hr).
Defined.

(** ** Port enumeration with a one-byte separator *)

Section Enumeration.

Context {W : Type} (drv : Driver W) (status : StatusCodes -> Z).

Lemma probed_app cs ds : probed (cs ++ ds) = probed cs ++ probed ds.
Proof. unfold probed. apply flat_map_app. Qed.

(** One probe: a [CreateFile], then a [CloseHandle] on whatever came back. *)
Lemma probe_step separator acc i (st : State W) :
  exists h okc w1 w2,
    probe drv separator acc i st
    = (if h =? INVALID_HANDLE_VALUE then acc
       else (fst acc ++ ((lit "COM" ++ to_string i)
                           ++ string_of_cstr separator),
             snd acc + 1),
       called W (CallCloseHandle h okc) w2
         (called W (CallCreateFile (lit "COM" ++ to_string i) 0 h) w1 st)).
Proof.
  unfold probe, CreateFile, CloseHandle. run.
  destruct (drv_CreateFile drv (lit "COM" ++ to_string i) 0 (world st))
    as [h w1]. cbn [fst snd world called].
  destruct (drv_CloseHandle drv h w1) as [okc w2].
  exists h, okc, w1, w2. reflexivity.
Qed.

(** The probing loop appends name and separator for every name the driver
    opened and counts it. *)
Lemma for_each_probe separator : forall idxs acc (st : State W),
  exists found,
    fst (fst (for_each (probe drv separator) acc idxs st))
      = fst acc ++ concat (map (fun n => n ++ string_of_cstr separator) found) /\
    snd (fst (for_each (probe drv separator) acc idxs st))
      = snd acc + Z.of_nat (length found) /\
    probed (calls (snd (for_each (probe drv separator) acc idxs st)))
      = probed (calls st) ++ found.
Proof.
  induction idxs as [| i idxs IH]; intros acc st.
  - exists []. cbn. rewrite !app_nil_r, Z.add_0_r. auto.
  - cbn [for_each]. unfold bind.
    destruct (probe_step separator acc i st) as (h & okc & w1 & w2 & E).
    rewrite E.
    match goal with
    | |- context [for_each _ ?a idxs ?x] =>
        destruct (IH a x) as (found & Hr & Hn & Hp)
    end.
    assert (Hx : probed (calls st ++
                           [CallCreateFile (lit "COM" ++ to_string i) 0 h]
                           ++ [CallCloseHandle h okc])
                 = probed (calls st)
                     ++ (if h =? INVALID_HANDLE_VALUE then []
                         else [lit "COM" ++ to_string i])).
    { rewrite probed_app. cbn [app probed flat_map probed_step].
      rewrite app_nil_r. reflexivity. }
    cbn [calls called] in Hp.
    rewrite <- (app_assoc (calls st)) in Hp.
    rewrite Hr, Hn, Hp, Hx.
    destruct (Z.eqb_spec h INVALID_HANDLE_VALUE) as [Eh | Eh].
    + exists found. cbn. rewrite app_nil_r. auto.
    + exists ((lit "COM" ++ to_string i) :: found).
      cbn [fst snd map concat length app].
      repeat split.
      * rewrite <- !app_assoc. reflexivity.
      * lia.
      * rewrite <- app_assoc. reflexivity.
Qed.

Lemma concat_sep_join (c : ascii) (found : list bytes) :
  found <> [] ->
  concat (map (fun n => n ++ [c]) found) = join [c] found ++ [c].
Proof.
  induction found as [| n rest IH]; [congruence |]. intros _.
  destruct rest as [| m rest].
  - cbn. rewrite app_nil_r. reflexivity.
  - cbn [map concat join]. cbn [map concat] in IH.
    rewrite IH by discriminate.
    rewrite <- !app_assoc. reflexivity.
Qed.

(** X20. With a separator of exactly one byte [getAvailablePorts] does what is
    asked of it: the names the driver opened, joined by the separator with
    nothing after the last; BUFFER_ERROR and an untouched buffer when the
    joined string and its terminator do not fit; the number of names
    otherwise. *)
Lemma getAvailablePorts_one_byte_separator
    buffer bufferSize separator c (st : State W) :
  string_of_cstr separator = [c] ->
  0 <= bufferSize <= INT_MAX ->
  exists found,
    probed (calls (snd (getAvailablePorts drv status buffer bufferSize
                          separator st)))
      = probed (calls st) ++ found /\
    fst (getAvailablePorts drv status buffer bufferSize separator st)
      = if bufferSize <? Z.of_nat (length (join [c] found)) + 1
        then (status BUFFER_ERROR, buffer)
        else (Z.of_nat (length found),
              join [c] found ++ [zero]
                ++ skipn (length (join [c] found) + 1) buffer).
Proof.
  intros Hsep Hn. unfold getAvailablePorts, bind.
  destruct (for_each_probe separator (seq 1 256) ([], 0) st)
    as (found & Hr & Hc & Hp).
  destruct (for_each (probe drv separator) ([], 0) (seq 1 256) st)
    as [[result portsCounter] st1].
  cbn [fst snd app] in Hr, Hc, Hp. rewrite Hsep in Hr.
  exists found.
  assert (Hs : size_t_of_int bufferSize = bufferSize).
  { unfold size_t_of_int. apply Z.mod_small. unfold INT_MAX in Hn. lia. }
  rewrite Hs.
  assert (He : (if (0 <? length result)%nat
                then erase result (length result - 1) else result)
               = join [c] found).
  { destruct found as [| n rest].
    - cbn in Hr. subst result. reflexivity.
    - rewrite Hr, concat_sep_join by discriminate.
      rewrite length_app. cbn [length].
      replace (0 <? length (join [c] (n :: rest)) + 1)%nat with true
        by (symmetry; apply Nat.ltb_lt; lia).
      unfold erase.
      replace (length (join [c] (n :: rest)) + 1 - 1)%nat
        with (length (join [c] (n :: rest)) + 0)%nat by lia.
      rewrite firstn_app_2. cbn. apply app_nil_r. }
  rewrite He.
  destruct (bufferSize <? Z.of_nat (length (join [c] found)) + 1);
    unfold ret; cbn [fst snd].
  - split; [exact Hp | reflexivity].
  - split; [exact Hp |]. rewrite memcpy_c_str, Hc. reflexivity.
Qed.

End Enumeration.

(** ** The scenarios of the specification, run on the simulated driver *)

Example open_close_happy_path :
  fst (open_COM3 desk) = 0 /\
  fst (close Sim.driver status_dense session) = 0.
Proof. split; vm_compute; reflexivity. Qed.

Example open_missing_device :
  fst (open Sim.driver status_dense (lit "COM99") 9600 8 0 0 (initial desk))
    = status_dense INVALID_HANDLE_ERROR /\
  ~ opened (snd (open Sim.driver status_dense (lit "COM99") 9600 8 0 0
                   (initial desk))).
Proof.
  split; [vm_compute; reflexivity |].
  unfold opened. vm_compute. intros H. exact H.
Qed.

Example short_read_without_traffic :
  fst (fst (read Sim.driver status_dense (scratch 64) 64 20 1
              (snd (open_COM3 (Sim.machine [lit "COM3"] [] None [])))))
    = 0.
Proof. vm_compute. reflexivity. Qed.

Example readUntil_with_delimiter :
  fst (readUntil Sim.driver status_dense (scratch 33) 32 100 2
         [CR; LF; zero] session)
    = (7, lit "HELLO" ++ [CR; LF; zero] ++ scratch 25).
Proof. vm_compute. reflexivity. Qed.

Example readUntil_exhausted :
  fst (readUntil Sim.driver status_dense (scratch 33) 32 50 1
         (lit "Z" ++ [zero])
         (snd (open_COM3 (Sim.machine [lit "COM3"] (lit "ABCDE") None []))))
    = (5, lit "ABCDE" ++ [zero] ++ scratch 27).
Proof. vm_compute. reflexivity. Qed.

(** A full accumulator puts the terminator one byte past a buffer of
    [bufferSize] bytes. *)
Example readUntil_terminator_past_the_end :
  fst (readUntil Sim.driver status_dense (scratch 3) 3 100 2
         [CR; LF; zero] session)
    = (3, lit "HEL" ++ [zero]).
Proof. vm_compute. reflexivity. Qed.

Example enumeration_buffer_too_small :
  fst (getAvailablePorts Sim.driver status_dense (scratch 4) 4
         (lit "," ++ [zero]) (initial rack))
    = (status_dense BUFFER_ERROR, scratch 4).
Proof. vm_compute. reflexivity. Qed.

Example enumeration_fits :
  fst (getAvailablePorts Sim.driver status_dense (scratch 10) 10
         (lit "," ++ [zero]) (initial rack))
    = (2, lit "COM1,COM7" ++ [zero]).
Proof. vm_compute. reflexivity. Qed.

(** * Further properties of the six functions *)

(** ** What the transfer functions leave alone *)

Section Frame.

Context {W : Type} (drv : Driver W) (status : StatusCodes -> Z).

Ltac quiet_calls :=
  repeat split; unfold ret;
  cbn [negb fst snd calls called hSerialPort dcbSerialParams set_timeouts
       set_data];
  rewrite <- ?app_assoc, ?owned_app; reflexivity.

Lemma same_session_refl (st : State W) : same_session st st.
Proof. repeat split. Qed.

Lemma same_session_trans (st1 st2 st3 : State W) :
  same_session st1 st2 -> same_session st2 st3 -> same_session st1 st3.
Proof.
  intros (A1 & A2 & A3) (B1 & B2 & B3).
  repeat split; etransitivity; eassumption.
Qed.

Lemma same_session_opened (st st' : State W) :
  same_session st st' -> (opened st' <-> opened st).
Proof. intros (Hh & _ & Ho). unfold opened. rewrite Hh, Ho. tauto. Qed.

Lemma readUntil_loop_frame n searchString : forall st : State W,
  same_session st (snd (readUntil_loop drv n searchString st)).
Proof.
  induction n as [| n IH]; intros st; [apply same_session_refl |].
  cbn [readUntil_loop]. unfold ReadFile. run.
  destruct (find (data st) (string_of_cstr searchString));
    [apply same_session_refl |].
  destruct (drv_ReadFile drv (hSerialPort st) 1 (world st)) as [[ok got] w1].
  cbn [fst snd].
  assert (Hq : same_session st (called W (CallReadFile (hSerialPort st) 1 ok got) w1 st)).
  { quiet_calls. }
  destruct ok; cbn [negb]; [| exact Hq].
  destruct (length got =? 0)%nat; [exact Hq |].
  match goal with
  | |- context [readUntil_loop drv n searchString ?x] =>
      apply (same_session_trans st x); [exact Hq | apply IH]
  end.
Qed.

Lemma transfers_same_session
    buffer bufferSize timeout multiplier searchString (st : State W) :
  same_session st
    (snd (read drv status buffer bufferSize timeout multiplier st)) /\
  same_session st
    (snd (readUntil drv status buffer bufferSize timeout multiplier
            searchString st)) /\
  same_session st
    (snd (write drv status buffer bufferSize timeout multiplier st)).
Proof.
  split; [| split].
  - unfold read, SetCommTimeouts, ReadFile. run.
    destruct (hSerialPort st =? INVALID_HANDLE_VALUE);
      [apply same_session_refl |]. cbn.
    destruct (drv_SetCommTimeouts drv (hSerialPort st) _ (world st))
      as [ok1 w1]. cbn.
    destruct ok1; cbn.
    + destruct (drv_ReadFile drv (hSerialPort st) _ w1) as [[ok2 got] w2].
      destruct ok2; quiet_calls.
    + quiet_calls.
  - unfold readUntil, SetCommTimeouts. unfold bind at 1 2 3 4, get, modify.
    cbn [fst snd].
    destruct (hSerialPort st =? INVALID_HANDLE_VALUE);
      [apply same_session_refl |].
    cbn [timeouts hSerialPort world set_timeouts].
    destruct (drv_SetCommTimeouts drv (hSerialPort st) _ (world st))
      as [ok1 w1].
    destruct ok1; cbn [negb].
    2:{ quiet_calls. }
    unfold bind, modify, get, ret. cbn [fst snd].
    match goal with
    | |- context [readUntil_loop drv ?n ?s ?x] =>
        pose proof (readUntil_loop_frame n s x) as Hl;
        assert (Hx : same_session st x) by quiet_calls;
        pose proof (same_session_trans st x _ Hx Hl) as Hs;
        destruct (readUntil_loop drv n s x) as [e st1]
    end.
    destruct e; exact Hs.
  - unfold write, SetCommTimeouts, WriteFile. run. cbn.
    destruct (drv_SetCommTimeouts drv (hSerialPort st) _ (world st))
      as [ok1 w1]. cbn.
    destruct ok1; cbn.
    + destruct (drv_WriteFile drv (hSerialPort st) _ w1) as [[ok2 k] w2].
      destruct ok2; quiet_calls.
    + quiet_calls.
Qed.

Lemma only_transfers_refl (st : State W) : only_transfers st st.
Proof. exists []. split; [symmetry; apply app_nil_r | reflexivity]. Qed.

Lemma only_transfers_trans (st1 st2 st3 : State W) :
  only_transfers st1 st2 -> only_transfers st2 st3 -> only_transfers st1 st3.
Proof.
  intros (m1 & E1 & F1) (m2 & E2 & F2). exists (m1 ++ m2). split.
  - rewrite E2, E1, app_assoc. reflexivity.
  - rewrite forallb_app, F1, F2. reflexivity.
Qed.

Ltac transfer_calls :=
  eexists; split;
  [ unfold ret;
    cbn [negb fst snd calls called set_timeouts set_data];
    rewrite <- ?app_assoc; reflexivity
  | reflexivity ].

Lemma readUntil_loop_transfers n searchString : forall st : State W,
  only_transfers st (snd (readUntil_loop drv n searchString st)).
Proof.
  induction n as [| n IH]; intros st; [apply only_transfers_refl |].
  cbn [readUntil_loop]. unfold ReadFile. run.
  destruct (find (data st) (string_of_cstr searchString));
    [apply only_transfers_refl |].
  destruct (drv_ReadFile drv (hSerialPort st) 1 (world st)) as [[ok got] w1].
  cbn [fst snd].
  assert (Hq : only_transfers st
                 (called W (CallReadFile (hSerialPort st) 1 ok got) w1 st))
    by transfer_calls.
  destruct ok; cbn [negb]; [| exact Hq].
  destruct (length got =? 0)%nat; [exact Hq |].
  match goal with
  | |- context [readUntil_loop drv n searchString ?x] =>
      apply (only_transfers_trans st x); [exact Hq | apply IH]
  end.
Qed.

(** The only driver calls [read], [readUntil] and [write] make are
    [SetCommTimeouts], [ReadFile] and [WriteFile]. *)
Lemma transfers_make_only_transfers
    buffer bufferSize timeout multiplier searchString (st : State W) :
  only_transfers st
    (snd (read drv status buffer bufferSize timeout multiplier st)) /\
  only_transfers st
    (snd (readUntil drv status buffer bufferSize timeout multiplier
            searchString st)) /\
  only_transfers st
    (snd (write drv status buffer bufferSize timeout multiplier st)).
Proof.
  split; [| split].
  - unfold read, SetCommTimeouts, ReadFile. run.
    destruct (hSerialPort st =? INVALID_HANDLE_VALUE);
      [apply only_transfers_refl |]. cbn.
    destruct (drv_SetCommTimeouts drv (hSerialPort st) _ (world st))
      as [ok1 w1]. cbn.
    destruct ok1; cbn.
    + destruct (drv_ReadFile drv (hSerialPort st) _ w1) as [[ok2 got] w2].
      destruct ok2; transfer_calls.
    + transfer_calls.
  - unfold readUntil, SetCommTimeouts. unfold bind at 1 2 3 4, get, modify.
    cbn [fst snd].
    destruct (hSerialPort st =? INVALID_HANDLE_VALUE);
      [apply only_transfers_refl |].
    cbn [timeouts hSerialPort world set_timeouts].
    destruct (drv_SetCommTimeouts drv (hSerialPort st) _ (world st))
      as [ok1 w1].
    destruct ok1; cbn [negb].
    2:{ transfer_calls. }
    unfold bind, modify, get, ret. cbn [fst snd].
    match goal with
    | |- context [readUntil_loop drv ?n ?s ?x] =>
        pose proof (readUntil_loop_transfers n s x) as Hl;
        assert (Hx : only_transfers st x) by transfer_calls;
        pose proof (only_transfers_trans st x _ Hx Hl) as Hs;
        destruct (readUntil_loop drv n s x) as [e st1]
    end.
    destruct e; exact Hs.
  - unfold write, SetCommTimeouts, WriteFile. run. cbn.
    destruct (drv_SetCommTimeouts drv (hSerialPort st) _ (world st))
      as [ok1 w1]. cbn.
    destruct ok1; cbn.
    + destruct (drv_WriteFile drv (hSerialPort st) _ w1) as [[ok2 k] w2].
      destruct ok2; transfer_calls.
    + transfer_calls.
Qed.

(** X1. [read], [readUntil] and [write] never assign the handle variable or
    the line state, and the only driver calls they make are
    [SetCommTimeouts], [ReadFile] and [WriteFile]: they never call
    [CreateFile], [CloseHandle], [GetCommState] or [SetCommState], whatever
    they return. So the process owns the same handles afterwards, and a
    session that was opened before the call is opened after it, and one that
    was not is not. *)
Theorem transfers_keep_session
    buffer bufferSize timeout multiplier searchString (st : State W) :
  let after_read :=
    snd (read drv status buffer bufferSize timeout multiplier st) in
  let after_readUntil :=
    snd (readUntil drv status buffer bufferSize timeout multiplier
           searchString st) in
  let after_write :=
    snd (write drv status buffer bufferSize timeout multiplier st) in
  (only_transfers st after_read /\
   same_session st after_read /\ (opened after_read <-> opened st)) /\
  (only_transfers st after_readUntil /\
   same_session st after_readUntil /\ (opened after_readUntil <-> opened st)) /\
  (only_transfers st after_write /\
   same_session st after_write /\ (opened after_write <-> opened st)).
Proof.
  cbv zeta.
  destruct (transfers_same_session buffer bufferSize timeout multiplier
              searchString st) as (S1 & S2 & S3).
  destruct (transfers_make_only_transfers buffer bufferSize timeout multiplier
              searchString st) as (T1 & T2 & T3).
  split; [| split];
    (split; [assumption
            | split; [assumption | apply same_session_opened; assumption]]).
Qed.

End Frame.

(** ** More on the life of a handle *)

Section Handles.

Context {W : Type} (drv : Driver W) (status : StatusCodes -> Z).

(** X2. On an opened session [close] makes exactly one driver call, a
    [CloseHandle] on the session's handle, and returns SUCCESS or
    CLOSE_HANDLE_ERROR by the driver's answer. Either way the session is
    not opened afterwards, and the handle variable, the line state, the
    timeouts and the accumulator are what they were: [close] assigns none
    of them. *)
Theorem close_releases_once (st : State W) :
  opened st ->
  let r := fst (close drv status st) in
  let st' := snd (close drv status st) in
  exists ok,
    calls st' = calls st ++ [CallCloseHandle (hSerialPort st) ok] /\
    r = status (if ok then SUCCESS else CLOSE_HANDLE_ERROR) /\
    ~ opened st' /\
    hSerialPort st' = hSerialPort st /\
    dcbSerialParams st' = dcbSerialParams st /\
    timeouts st' = timeouts st /\
    data st' = data st.
Proof.
  intros Hop r st'. subst r st'.
  destruct (close_opened drv status st Hop) as (ok & Hc & Hr & Hn).
  exists ok. split; [exact Hc |]. split; [exact Hr |]. split; [exact Hn |].
  clear Hc Hr Hn.
  unfold close, CloseHandle, bind, get, ret. cbn [fst snd].
  rewrite (opened_eqb st Hop).
  destruct (drv_CloseHandle drv (hSerialPort st) (world st)) as [[|] w];
    cbn; auto.
Qed.

(** X3. When [CreateFile] answers with the invalid handle, [open] returns
    INVALID_HANDLE_ERROR and leaves the handle variable at
    [INVALID_HANDLE_VALUE]; from then on [read], [readUntil] and [close]
    return INVALID_HANDLE_ERROR at once, make no driver call, and change
    neither the caller's buffer nor any global. *)
Theorem failed_acquisition_arms_guard
    port baudrate dataBits parity stopBits
    buffer bufferSize timeout multiplier searchString (st : State W) :
  fst (drv_CreateFile drv port FILE_ATTRIBUTE_NORMAL (world st))
    = INVALID_HANDLE_VALUE ->
  let st1 := snd (open drv status port baudrate dataBits parity stopBits st) in
  fst (open drv status port baudrate dataBits parity stopBits st)
    = status INVALID_HANDLE_ERROR /\
  hSerialPort st1 = INVALID_HANDLE_VALUE /\
  read drv status buffer bufferSize timeout multiplier st1
    = (status INVALID_HANDLE_ERROR, buffer, st1) /\
  readUntil drv status buffer bufferSize timeout multiplier searchString st1
    = (status INVALID_HANDLE_ERROR, buffer, st1) /\
  close drv status st1 = (status INVALID_HANDLE_ERROR, st1).
Proof.
  intros Hc st1.
  assert (H : fst (open drv status port baudrate dataBits parity stopBits st)
              = status INVALID_HANDLE_ERROR /\
              hSerialPort st1 = INVALID_HANDLE_VALUE).
  { subst st1. unfold open, CreateFile. run. cbn.
    destruct (drv_CreateFile drv port FILE_ATTRIBUTE_NORMAL (world st))
      as [h w1]. cbn in Hc. subst h. cbn. auto. }
  destruct H as [Hr Hh]. split; [exact Hr |]. split; [exact Hh |].
  apply guarded_on_invalid_handle. exact Hh.
Qed.

(** X4. [open] never gives up the handle the session held before: called on
    an opened session, it overwrites the handle variable, and unless the
    driver hands the very same handle out again the old one is still owned
    by the process afterwards, with nothing left that refers to it. *)
Theorem open_keeps_previous_handle_owned
    port baudrate dataBits parity stopBits (st : State W) :
  opened st ->
  let st' := snd (open drv status port baudrate dataBits parity stopBits st) in
  hSerialPort st' <> hSerialPort st ->
  In (hSerialPort st) (owned (calls st')).
Proof.
  intros Hop st' Hne. subst st'. unfold opened in Hop.
  assert (Hrm : forall h, h <> hSerialPort st ->
                  In (hSerialPort st)
                     (remove Z.eq_dec h (h :: owned (calls st)))).
  { intros h Hh. apply in_in_remove; [congruence | right; exact Hop]. }
  destruct (open_path drv status port baudrate dataBits parity stopBits st)
    as [Hc Hh Hr | h d okc Hv Hc Hh Hr | h d okc Hv Hc Hh Hr
        | h d okc Hv Hc Hh Hr | h d Hv Hc Hh Hd Ht Hr];
    rewrite Hh in Hne; rewrite Hc, owned_app; cbn [fold_left owned_step].
  - cbn. exact Hop.
  - destruct (Z.eqb_spec h INVALID_HANDLE_VALUE); [contradiction |].
    apply Hrm, Hne.
  - destruct (Z.eqb_spec h INVALID_HANDLE_VALUE); [contradiction |].
    apply Hrm, Hne.
  - destruct (Z.eqb_spec h INVALID_HANDLE_VALUE); [contradiction |].
    apply Hrm, Hne.
  - destruct (Z.eqb_spec h INVALID_HANDLE_VALUE); [contradiction |].
    right. exact Hop.
Qed.

(** X5. Whatever the arguments, when [open] returns SUCCESS the line state
    it committed and kept holds the baud rate reduced modulo 2^32 and the
    data bits, parity and stop bits each reduced modulo 256: an argument
    outside its field is stored truncated, not rejected. *)
Theorem open_stores_reduced_arguments
    port baudrate dataBits parity stopBits (st : State W) :
  status_signed status ->
  fst (open drv status port baudrate dataBits parity stopBits st)
    = status SUCCESS ->
  let st' := snd (open drv status port baudrate dataBits parity stopBits st) in
  let dcb := dcbSerialParams st' in
  BaudRate dcb = baudrate mod 2 ^ 32 /\
  ByteSize dcb = dataBits mod 256 /\
  Parity dcb = parity mod 256 /\
  StopBits dcb = stopBits mod 256 /\
  exists fetched t,
    same_elsewhere dcb fetched /\
    calls st' = calls st ++
      [CallCreateFile port FILE_ATTRIBUTE_NORMAL (hSerialPort st');
       CallGetCommState (hSerialPort st') true fetched;
       CallSetCommState (hSerialPort st') dcb true;
       CallSetCommTimeouts (hSerialPort st') t true].
Proof.
  intros [H0 Hneg] Hs st' dcb. subst dcb st'.
  assert (Herr : forall c, c <> SUCCESS -> status c <> status SUCCESS).
  { intros c Hc E. specialize (Hneg c Hc). lia. }
  destruct (open_path drv status port baudrate dataBits parity stopBits st)
    as [Hc Hh Hr | h d okc Hv Hc Hh Hr | h d okc Hv Hc Hh Hr
        | h d okc Hv Hc Hh Hr | h d Hv Hc Hh Hd Ht Hr].
  1-4: exfalso; rewrite Hr in Hs; revert Hs; apply Herr; discriminate.
  rewrite Hd, Hh, Hc.
  unfold set_line, DWORD_of_int, BYTE_of_int, same_elsewhere.
  cbn [BaudRate ByteSize Parity StopBits DCBlength fFlags wReserved XonLim
       XoffLim XonChar XoffChar ErrorChar EofChar EvtChar wReserved1].
  change (2 ^ 8) with 256.
  repeat split. exists d, (mkTimeouts 50 10 50 10 50).
  repeat split.
Qed.

End Handles.

(** ** More on read until delimiter *)

Lemma received_snoc (answers : list (bool * bytes)) a :
  received (answers ++ [a]) = received answers ++ snd a.
Proof.
  unfold received. rewrite map_app, concat_app. cbn.
  rewrite app_nil_r. reflexivity.
Qed.

(** A string that occurs once a byte is added, and not before, sits at the
    very end. *)
Lemma occurs_first_at_end (d l : bytes) (x : ascii) :
  Occurs d (l ++ [x]) -> ~ Occurs d l -> exists pre, l ++ [x] = pre ++ d.
Proof.
  intros (a & b & E) Hn.
  destruct b as [| y b] using rev_ind.
  - exists a. rewrite app_nil_r in E. exact E.
  - exfalso. apply Hn. exists a, b.
    rewrite !app_assoc in E. apply app_inj_tail in E.
    destruct E as [E _]. rewrite <- app_assoc in E. exact E.
Qed.

(** Overwriting a prefix no longer than [n] keeps the length and everything
    from position [n] on, provided the destination has [n] bytes. *)
Lemma overwrite_within (src dst : bytes) (n : nat) :
  (length src <= n)%nat -> (n <= length dst)%nat ->
  length (src ++ skipn (length src) dst) = length dst /\
  skipn n (src ++ skipn (length src) dst) = skipn n dst.
Proof.
  intros H1 H2. split.
  - rewrite length_app, length_skipn. lia.
  - rewrite skipn_app, skipn_skipn.
    rewrite (skipn_all2 src) by exact H1. cbn [app].
    f_equal. lia.
Qed.

Section ReadUntilMore.

Context {W : Type} (drv : Driver W) (status : StatusCodes -> Z).
Hypothesis drv_ok : DriverOk drv.

(** X6. When [readUntil] returns a count and the non-empty delimiter occurs
    in the bytes it accumulated, those bytes end with the delimiter and the
    delimiter occurs nowhere before: reading stops with the byte that
    completes the first occurrence, and nothing after it is taken from the
    driver. *)
Theorem readUntil_stops_at_delimiter
    buffer bufferSize timeout multiplier searchString (st : State W) :
  status_signed status ->
  bufferSize <= INT_MAX ->
  let out :=
    readUntil drv status buffer bufferSize timeout multiplier searchString st in
  let acc := data (snd out) in
  let delimiter := string_of_cstr searchString in
  0 <= fst (fst out) ->
  delimiter <> [] ->
  Occurs delimiter acc ->
  (exists pre, acc = pre ++ delimiter) /\
  ~ Occurs delimiter (removelast acc) /\
  snd (fst out) = acc ++ [zero] ++ skipn (length acc + 1) buffer.
Proof.
  intros [_ Hneg] Hn out acc delimiter. subst acc delimiter out.
  destruct (readUntil drv status buffer bufferSize timeout multiplier
              searchString st) as [[r buffer'] st'] eqn:E.
  cbn [fst snd]. intros Hr Hd Ho.
  assert (Hlt : forall c, c <> SUCCESS -> r <> status c).
  { intros c Hc Er. specialize (Hneg c Hc). lia. }
  apply (readUntil_run drv status drv_ok) in E.
  destruct E as [(_ & Er & _) | [(_ & _ & Er & _) | (_ & _ & E)]].
  { exfalso. revert Er. apply Hlt. discriminate. }
  { exfalso. revert Er. apply Hlt. discriminate. }
  destruct E as (served & last & _ & _ & Hs & Hacc & Hk & Hx).
  assert (Hcopy : buffer' = data st' ++ [zero]
                              ++ skipn (length (data st') + 1) buffer).
  { destruct Hx as [(_ & (_ & Hb) & _) | [(_ & _ & Hb) | (g & _ & Er & _)]];
      try exact Hb.
    exfalso. revert Er. apply Hlt. discriminate. }
  assert (Hlast : (length served < length (served ++ last))%nat
                  \/ last = []).
  { destruct last; [right; reflexivity | left].
    rewrite length_app. cbn. lia. }
  destruct (exists_last (l := served)) as (front & a & Es).
  { intros ->. rewrite Hacc in Ho. destruct Ho as (x & y & Ho).
    cbn in Ho. symmetry in Ho.
    apply app_eq_nil in Ho. destruct Ho as [_ Ho].
    apply app_eq_nil in Ho. destruct Ho as [Ho _]. contradiction. }
  subst served.
  apply Forall_app in Hs. destruct Hs as [_ Ha].
  inversion Ha as [| ? ? [_ Hone] _]; subst.
  destruct a as [oka [| x [| ? ?]]]; try discriminate Hone. cbn [snd] in *.
  rewrite received_snoc in Hacc. cbn [snd] in Hacc.
  assert (Hbefore : ~ Occurs (string_of_cstr searchString) (received front)).
  { specialize (Hk (length front)).
    rewrite firstn_app, Nat.sub_diag, firstn_all in Hk.
    cbn in Hk. rewrite app_nil_r in Hk. apply Hk.
    rewrite !length_app. cbn. lia. }
  rewrite Hacc in Ho |- *.
  split; [exact (occurs_first_at_end _ _ _ Ho Hbefore) |].
  split; [rewrite removelast_last; exact Hbefore |].
  reflexivity.
Qed.

(** With no iteration to run the call commits the timeouts, writes the
    terminator at the head of the buffer and returns zero. *)
Lemma readUntil_idle
    buffer bufferSize timeout multiplier searchString (st : State W) :
  hSerialPort st <> INVALID_HANDLE_VALUE ->
  let h := hSerialPort st in
  let t := set_read_timeouts (DWORD_of_int timeout) (DWORD_of_int timeout)
                             (DWORD_of_int multiplier) (timeouts st) in
  fst (drv_SetCommTimeouts drv h t (world st)) = true ->
  (forall x : State W,
      data x = [] ->
      readUntil_loop drv (Z.to_nat bufferSize) searchString x
        = (FellThrough, x)) ->
  let out :=
    readUntil drv status buffer bufferSize timeout multiplier searchString st in
  fst out = (0, zero :: skipn 1 buffer) /\
  calls (snd out) = calls st ++ [CallSetCommTimeouts h t true].
Proof.
  intros Hv h t Hc Hloop out. subst out h t.
  destruct (readUntil drv status buffer bufferSize timeout multiplier
              searchString st) as [[r buffer'] st'] eqn:E.
  cbn [fst snd].
  unfold readUntil, SetCommTimeouts in E.
  unfold bind at 1 2 3 4, get, modify in E. cbn [fst snd] in E.
  apply Z.eqb_neq in Hv. rewrite Hv in E.
  cbn [timeouts hSerialPort world set_timeouts] in E.
  destruct (drv_SetCommTimeouts drv (hSerialPort st) _ (world st))
    as [ok1 w1]. cbn [fst] in Hc. subst ok1. cbn [negb] in E.
  unfold bind, modify, get, ret in E. cbn [fst snd] in E.
  rewrite Hloop in E by reflexivity.
  injection E as <- <- <-. cbn. split; reflexivity.
Qed.

(** X7. With [bufferSize <= 0], on a session that passes the guard and
    whose timeout commit is accepted, [readUntil] asks the driver for no
    byte and returns 0, yet still writes the terminating zero byte at the
    first position of the caller's buffer. *)
Theorem readUntil_without_room
    buffer bufferSize timeout multiplier searchString (st : State W) :
  hSerialPort st <> INVALID_HANDLE_VALUE ->
  bufferSize <= 0 ->
  let h := hSerialPort st in
  let t := set_read_timeouts (DWORD_of_int timeout) (DWORD_of_int timeout)
                             (DWORD_of_int multiplier) (timeouts st) in
  fst (drv_SetCommTimeouts drv h t (world st)) = true ->
  let out :=
    readUntil drv status buffer bufferSize timeout multiplier searchString st in
  fst out = (0, zero :: skipn 1 buffer) /\
  calls (snd out) = calls st ++ [CallSetCommTimeouts h t true].
Proof.
  intros Hv Hn h t Hc. apply readUntil_idle; try assumption.
  intros x _. replace (Z.to_nat bufferSize) with 0%nat by lia. reflexivity.
Qed.

(** X8. With an empty delimiter (a search string that starts with the zero
    byte) the delimiter is found in the empty accumulator at once: whatever
    [bufferSize] is, [readUntil] asks the driver for no byte, returns 0 and
    writes only the terminating zero byte. *)
Theorem readUntil_empty_delimiter
    buffer bufferSize timeout multiplier searchString (st : State W) :
  hSerialPort st <> INVALID_HANDLE_VALUE ->
  string_of_cstr searchString = [] ->
  let h := hSerialPort st in
  let t := set_read_timeouts (DWORD_of_int timeout) (DWORD_of_int timeout)
                             (DWORD_of_int multiplier) (timeouts st) in
  fst (drv_SetCommTimeouts drv h t (world st)) = true ->
  let out :=
    readUntil drv status buffer bufferSize timeout multiplier searchString st in
  fst out = (0, zero :: skipn 1 buffer) /\
  calls (snd out) = calls st ++ [CallSetCommTimeouts h t true].
Proof.
  intros Hv Hd h t Hc. apply readUntil_idle; try assumption.
  intros x Hx. destruct (Z.to_nat bufferSize); [reflexivity |].
  cbn [readUntil_loop]. run. rewrite Hx, Hd. reflexivity.
Qed.

(** X9. [readUntil] touches at most the first [bufferSize + 1] bytes of the
    caller's storage: when the storage has that many bytes, its length is
    kept and every byte from position [bufferSize + 1] on is unchanged,
    whatever the call returns. *)
Theorem readUntil_within_size_plus_one
    buffer bufferSize timeout multiplier searchString (st : State W) :
  0 <= bufferSize <= INT_MAX ->
  bufferSize + 1 <= Z.of_nat (length buffer) ->
  let buffer' :=
    snd (fst (readUntil drv status buffer bufferSize timeout multiplier
                searchString st)) in
  length buffer' = length buffer /\
  skipn (Z.to_nat bufferSize + 1) buffer'
    = skipn (Z.to_nat bufferSize + 1) buffer.
Proof.
  intros Hn Hroom buffer'. subst buffer'.
  destruct (readUntil drv status buffer bufferSize timeout multiplier
              searchString st) as [[r buffer'] st'] eqn:E.
  cbn [fst snd].
  apply (readUntil_run drv status drv_ok) in E.
  destruct E as [(_ & _ & Eb & _) | [(_ & _ & _ & Eb & _) | (_ & _ & E)]];
    try (subst buffer'; split; reflexivity).
  destruct E as (served & last & _ & Hl & Hs & Hd & _ & Hx).
  assert (Hlen : (length (data st') <= Z.to_nat bufferSize)%nat).
  { rewrite Hd, (received_one_byte served Hs).
    rewrite length_app in Hl. lia. }
  assert (Hcopy : buffer' = buffer \/
                  buffer' = (data st' ++ [zero])
                              ++ skipn (length (data st' ++ [zero])) buffer).
  { destruct Hx as [(_ & (_ & Hb) & _) | [(_ & _ & Hb) | (g & _ & _ & Hb)]];
      [right | right | left; exact Hb];
      rewrite Hb, length_app, <- app_assoc; reflexivity. }
  destruct Hcopy as [-> | ->]; [split; reflexivity |].
  apply overwrite_within; rewrite ?length_app; cbn [length]; lia.
Qed.

(** X10. The terminator is written even when the payload has used up the
    caller's storage: whenever [readUntil] returns a count that is not
    smaller than the number of bytes the caller's storage has, the bytes
    written reach one position past its end. *)
Theorem readUntil_terminator_overruns
    buffer bufferSize timeout multiplier searchString (st : State W) :
  status_signed status ->
  bufferSize <= INT_MAX ->
  let out :=
    readUntil drv status buffer bufferSize timeout multiplier searchString st in
  Z.of_nat (length buffer) <= fst (fst out) ->
  Z.of_nat (length (snd (fst out))) = fst (fst out) + 1.
Proof.
  intros [_ Hneg] Hn out. subst out.
  destruct (readUntil drv status buffer bufferSize timeout multiplier
              searchString st) as [[r buffer'] st'] eqn:E.
  cbn [fst snd]. intros Hr.
  assert (Hlt : forall c, c <> SUCCESS -> r <> status c).
  { intros c Hc Er. specialize (Hneg c Hc). lia. }
  apply (readUntil_run drv status drv_ok) in E.
  destruct E as [(_ & Er & _) | [(_ & _ & Er & _) | (_ & _ & E)]].
  { exfalso. revert Er. apply Hlt. discriminate. }
  { exfalso. revert Er. apply Hlt. discriminate. }
  destruct E as (served & last & _ & Hl & Hs & Hd & _ & Hx).
  assert (Hlen : 0 <= Z.of_nat (length (data st')) <= INT_MAX).
  { rewrite Hd, (received_one_byte served Hs).
    rewrite length_app in Hl. unfold INT_MAX in *. lia. }
  rewrite int_of_unsigned_small in Hx by lia.
  assert (Hcopy : r = Z.of_nat (length (data st')) /\
                  buffer' = data st' ++ [zero]
                              ++ skipn (length (data st') + 1) buffer).
  { destruct Hx as [(_ & Hb & _) | [(_ & Hb) | (g & _ & Er & _)]];
      try exact Hb.
    exfalso. revert Er. apply Hlt. discriminate. }
  destruct Hcopy as [Er ->]. subst r.
  rewrite !length_app, skipn_all2 by lia. cbn [length]. lia.
Qed.

End ReadUntilMore.

(** ** More on timed read and write *)

Lemma DWORD_of_negative_int z :
  - 2 ^ 31 <= z < 0 -> DWORD_of_int z = z + 2 ^ 32.
Proof.
  intros H. unfold DWORD_of_int. symmetry.
  apply Z.mod_unique_pos with (q := -1); lia.
Qed.

Section TransferMore.

Context {W : Type} (drv : Driver W) (status : StatusCodes -> Z).
Hypothesis drv_ok : DriverOk drv.

(** X11. [read] touches at most the first [bufferSize] bytes of the caller's
    storage: when the storage has that many bytes, its length is kept and
    every byte from position [bufferSize] on is unchanged, whatever the call
    returns. Unlike [readUntil] it writes no terminator. *)
Theorem read_within_size buffer bufferSize timeout multiplier (st : State W) :
  0 <= bufferSize <= INT_MAX ->
  bufferSize <= Z.of_nat (length buffer) ->
  let buffer' :=
    snd (fst (read drv status buffer bufferSize timeout multiplier st)) in
  length buffer' = length buffer /\
  skipn (Z.to_nat bufferSize) buffer' = skipn (Z.to_nat bufferSize) buffer.
Proof.
  intros Hn Hroom buffer'. subst buffer'. unfold INT_MAX in Hn.
  unfold read, SetCommTimeouts, ReadFile. run.
  destruct (hSerialPort st =? INVALID_HANDLE_VALUE);
    [split; reflexivity |]. cbn.
  rewrite (DWORD_of_int_small bufferSize) by lia.
  destruct (drv_SetCommTimeouts drv (hSerialPort st) _ (world st))
    as [ok1 w1]. cbn.
  destruct ok1; cbn; [| split; reflexivity].
  pose proof (ReadFile_bound drv drv_ok (hSerialPort st) bufferSize w1
                (proj1 Hn)) as Hb.
  destruct (drv_ReadFile drv (hSerialPort st) bufferSize w1)
    as [[ok2 got] w2]. cbn in Hb |- *.
  assert (H : length (memcpy buffer got (length got)) = length buffer /\
              skipn (Z.to_nat bufferSize) (memcpy buffer got (length got))
              = skipn (Z.to_nat bufferSize) buffer).
  { rewrite memcpy_all. apply overwrite_within; lia. }
  destruct ok2; exact H.
Qed.

(** X12. A negative [bufferSize] is handed to the driver as the unsigned
    number [bufferSize + 2^32]: [read] asks for that many bytes, and [write]
    offers the driver that many bytes from the caller's pointer on. *)
Theorem negative_size_wraps buffer bufferSize timeout multiplier (st : State W) :
  hSerialPort st <> INVALID_HANDLE_VALUE ->
  - 2 ^ 31 <= bufferSize < 0 ->
  let h := hSerialPort st in
  let tr := set_read_timeouts (DWORD_of_int timeout) (DWORD_of_int timeout)
                              (DWORD_of_int multiplier) (timeouts st) in
  let tw := set_write_timeouts (DWORD_of_int timeout) (DWORD_of_int multiplier)
                               (timeouts st) in
  (fst (drv_SetCommTimeouts drv h tr (world st)) = true ->
   exists ok got,
     calls (snd (read drv status buffer bufferSize timeout multiplier st))
       = calls st ++
           [CallSetCommTimeouts h tr true;
            CallReadFile h (bufferSize + 2 ^ 32) ok got]) /\
  (fst (drv_SetCommTimeouts drv h tw (world st)) = true ->
   exists ok k,
     calls (snd (write drv status buffer bufferSize timeout multiplier st))
       = calls st ++
           [CallSetCommTimeouts h tw true;
            CallWriteFile h (firstn (Z.to_nat (bufferSize + 2 ^ 32)) buffer)
              ok k]).
Proof.
  intros Hv Hn h tr tw. subst h tr tw. apply Z.eqb_neq in Hv. split.
  - intros Hc. unfold read, SetCommTimeouts, ReadFile. run. rewrite Hv. cbn.
    rewrite (DWORD_of_negative_int bufferSize Hn).
    destruct (drv_SetCommTimeouts drv (hSerialPort st) _ (world st))
      as [ok1 w1]. cbn in Hc |- *. subst ok1. cbn.
    destruct (drv_ReadFile drv (hSerialPort st) _ w1) as [[ok2 got] w2].
    exists ok2, got. destruct ok2; cbn; rewrite <- app_assoc; reflexivity.
  - intros Hc. unfold write, SetCommTimeouts, WriteFile. run. cbn.
    rewrite (DWORD_of_negative_int bufferSize Hn).
    destruct (drv_SetCommTimeouts drv (hSerialPort st) _ (world st))
      as [ok1 w1]. cbn in Hc |- *. subst ok1. cbn.
    destruct (drv_WriteFile drv (hSerialPort st) _ w1) as [[ok2 k] w2].
    exists ok2, k. destruct ok2; cbn; rewrite <- app_assoc; reflexivity.
Qed.

End TransferMore.

(** ** More on port enumeration *)

Lemma opened_names_cons i h ok (ias : list (nat * (HANDLE * bool))) :
  opened_names ((i, (h, ok)) :: ias)
  = (if h =? INVALID_HANDLE_VALUE then [] else [port_name i])
      ++ opened_names ias.
Proof.
  unfold opened_names. cbn [filter fst snd].
  destruct (h =? INVALID_HANDLE_VALUE); reflexivity.
Qed.

(** Closing right after opening leaves a handle out of the ledger, and the
    following probes cannot bring it back for good. *)
Lemma probes_release (h : HANDLE) (ias : list (nat * (HANDLE * bool))) :
  forall acc,
    ~ In h acc \/ In h (map (fun ia => fst (snd ia)) ias) ->
    ~ In h (fold_left owned_step (concat (map probe_calls ias)) acc).
Proof.
  induction ias as [| [i [h' ok]] ias IH]; intros acc Hacc.
  - cbn. destruct Hacc as [Hacc | []]. exact Hacc.
  - cbn [map concat probe_calls fst snd app fold_left owned_step].
    apply IH.
    destruct (Z.eq_dec h h') as [-> | Hne].
    + left. destruct (h' =? INVALID_HANDLE_VALUE); apply remove_In.
    + cbn [map fst snd In] in Hacc.
      destruct Hacc as [Hacc | [Hin | Hin]];
        [left | congruence | right; exact Hin].
      intros Hin. apply in_remove in Hin. destruct Hin as [Hin _].
      destruct (h' =? INVALID_HANDLE_VALUE);
        [| destruct Hin as [Hin | Hin]; [congruence |]]; contradiction.
Qed.

Lemma list_sum_shift (f : nat -> nat) (k : nat) (l : list nat) :
  list_sum (map (fun i => (f i + k)%nat) l)
  = (list_sum (map f l) + length l * k)%nat.
Proof.
  unfold list_sum. induction l as [| i l IH]; [reflexivity |].
  cbn [map fold_right length]. rewrite IH. lia.
Qed.

Section EnumerationMore.

Context {W : Type} (drv : Driver W) (status : StatusCodes -> Z).

(** The probing loop in full: its calls, its two results, and the globals
    it leaves alone. *)
Lemma for_each_probe_log separator : forall idxs acc (st : State W),
  exists answers,
    length answers = length idxs /\
    calls (snd (for_each (probe drv separator) acc idxs st))
      = calls st ++ concat (map probe_calls (combine idxs answers)) /\
    fst (fst (for_each (probe drv separator) acc idxs st))
      = fst acc ++ concat (map (fun n => n ++ string_of_cstr separator)
                               (opened_names (combine idxs answers))) /\
    snd (fst (for_each (probe drv separator) acc idxs st))
      = snd acc + Z.of_nat (length (opened_names (combine idxs answers))) /\
    hSerialPort (snd (for_each (probe drv separator) acc idxs st))
      = hSerialPort st /\
    dcbSerialParams (snd (for_each (probe drv separator) acc idxs st))
      = dcbSerialParams st /\
    timeouts (snd (for_each (probe drv separator) acc idxs st))
      = timeouts st /\
    data (snd (for_each (probe drv separator) acc idxs st)) = data st.
Proof.
  induction idxs as [| i idxs IH]; intros acc st.
  - exists []. cbn. rewrite !app_nil_r, Z.add_0_r. repeat split.
  - cbn [for_each]. unfold bind.
    destruct (probe_step drv separator acc i st) as (h & okc & w1 & w2 & E).
    rewrite E.
    match goal with
    | |- context [for_each _ ?a idxs ?x] =>
        destruct (IH a x) as (answers & Hl & Hc & Hr & Hn & G1 & G2 & G3 & G4)
    end.
    exists ((h, okc) :: answers).
    cbn [combine map concat probe_calls fst snd length].
    rewrite opened_names_cons, Hc, Hr, Hn, G1, G2, G3, G4.
    cbn [calls called hSerialPort dcbSerialParams timeouts data].
    split; [congruence |].
    split; [rewrite <- !app_assoc; reflexivity |].
    unfold port_name.
    destruct (h =? INVALID_HANDLE_VALUE); cbn [fst snd app length map concat];
      repeat split; rewrite <- ?app_assoc; try reflexivity; lia.
Qed.

(** The text the loop builds is no longer than all names and separators. *)
Lemma for_each_probe_length separator : forall idxs acc (st : State W),
  (length (fst (fst (for_each (probe drv separator) acc idxs st)))
   <= length (fst acc)
      + list_sum (map (fun i => (length (port_name i)
                                 + length (string_of_cstr separator))%nat)
                      idxs))%nat.
Proof.
  induction idxs as [| i idxs IH]; intros acc st.
  - cbn. lia.
  - cbn [for_each]. unfold bind.
    destruct (probe_step drv separator acc i st) as (h & okc & w1 & w2 & E).
    rewrite E.
    match goal with
    | |- context [for_each _ ?a idxs ?x] => pose proof (IH a x) as Hb
    end.
    cbn [map]. unfold list_sum in *. cbn [fold_right].
    destruct (h =? INVALID_HANDLE_VALUE); cbn [fst] in Hb;
      rewrite ?length_app in Hb; unfold port_name in *;
      rewrite ?length_app in *; lia.
Qed.

(** [getAvailablePorts] from end to end, for every separator and size. *)
Lemma getAvailablePorts_run buffer bufferSize separator (st : State W) :
  exists answers,
    length answers = 256%nat /\
    let out := getAvailablePorts drv status buffer bufferSize separator st in
    let names := opened_names (combine (seq 1 256) answers) in
    let text :=
      removelast (concat (map (fun n => n ++ string_of_cstr separator) names)) in
    calls (snd out)
      = calls st ++ concat (map probe_calls (combine (seq 1 256) answers)) /\
    hSerialPort (snd out) = hSerialPort st /\
    dcbSerialParams (snd out) = dcbSerialParams st /\
    timeouts (snd out) = timeouts st /\
    data (snd out) = data st /\
    (length text <= 1428 + 256 * length (string_of_cstr separator))%nat /\
    fst out
      = if size_t_of_int bufferSize <? Z.of_nat (length text) + 1
        then (status BUFFER_ERROR, buffer)
        else (Z.of_nat (length names),
              text ++ [zero] ++ skipn (length text + 1) buffer).
Proof.
  destruct (for_each_probe_log separator (seq 1 256) ([], 0) st)
    as (answers & Hl & Hc & Hr & Hn & G1 & G2 & G3 & G4).
  pose proof (for_each_probe_length separator (seq 1 256) ([], 0) st) as Hb.
  exists answers. split; [rewrite Hl; apply length_seq |].
  cbv zeta. unfold getAvailablePorts, bind.
  destruct (for_each (probe drv separator) ([], 0) (seq 1 256) st)
    as [[result portsCounter] st1].
  cbn [fst snd app] in Hc, Hr, Hn, G1, G2, G3, G4, Hb.
  rewrite <- Hr.
  assert (He : (if (0 <? length result)%nat
                then erase result (length result - 1) else result)
               = removelast result).
  { rewrite removelast_firstn_len. unfold erase.
    destruct result; [reflexivity |].
    cbn [length Nat.ltb Nat.leb]. f_equal. lia. }
  rewrite He.
  assert (Hlen : (length (removelast result)
                  <= 1428 + 256 * length (string_of_cstr separator))%nat).
  { rewrite list_sum_shift, length_seq in Hb.
    assert (Hnames : list_sum (map (fun i => length (port_name i)) (seq 1 256))
                     = 1428%nat) by (vm_compute; reflexivity).
    rewrite Hnames in Hb. cbn [length] in Hb.
    rewrite removelast_firstn_len, length_firstn. lia. }
  destruct (size_t_of_int bufferSize <? Z.of_nat (length (removelast result)) + 1);
    unfold ret; cbn [fst snd]; repeat split; try assumption.
  rewrite memcpy_c_str, Hn. reflexivity.
Qed.

(** X13. [getAvailablePorts] makes exactly 512 driver calls: for each of
    COM1, COM2, ..., COM256 in this order a [CreateFile] with attributes 0,
    followed at once by a [CloseHandle] on whatever came back, the invalid
    handle included. It assigns none of the session's globals, so it can run
    on an opened session without disturbing it. *)
Theorem getAvailablePorts_probes_every_port
    buffer bufferSize separator (st : State W) :
  let st' :=
    snd (getAvailablePorts drv status buffer bufferSize separator st) in
  exists answers,
    length answers = 256%nat /\
    calls st'
      = calls st ++ concat (map probe_calls (combine (seq 1 256) answers)) /\
    hSerialPort st' = hSerialPort st /\
    dcbSerialParams st' = dcbSerialParams st /\
    timeouts st' = timeouts st /\
    data st' = data st.
Proof.
  destruct (getAvailablePorts_run buffer bufferSize separator st)
    as (answers & Hl & H). cbv zeta in H |- *.
  destruct H as (Hc & G1 & G2 & G3 & G4 & _).
  exists answers. repeat split; assumption.
Qed.

(** X14. No handle [getAvailablePorts] was handed by [CreateFile] is still
    owned when it returns, also when it returns BUFFER_ERROR. *)
Theorem getAvailablePorts_releases_every_handle
    buffer bufferSize separator (st : State W) :
  let st' :=
    snd (getAvailablePorts drv status buffer bufferSize separator st) in
  forall name attrs h,
    In (CallCreateFile name attrs h) (skipn (length (calls st)) (calls st')) ->
    ~ In h (owned (calls st')).
Proof.
  destruct (getAvailablePorts_run buffer bufferSize separator st)
    as (answers & Hl & H). cbv zeta in H |- *.
  destruct H as (Hc & _). intros name attrs h Hin.
  rewrite Hc in Hin |- *.
  rewrite skipn_app, skipn_all, Nat.sub_diag in Hin. cbn [app skipn] in Hin.
  rewrite owned_app. apply probes_release. right.
  apply in_concat in Hin. destruct Hin as (cs & Hcs & Hin).
  apply in_map_iff in Hcs. destruct Hcs as ([i [h' ok]] & <- & Hia).
  apply in_map_iff. exists (i, (h', ok)). split; [| exact Hia].
  cbn in Hin |- *. destruct Hin as [Hin | [Hin | []]]; congruence.
Qed.

(** X15. For every separator and [0 <= bufferSize]: the text
    [getAvailablePorts] builds is each opened name followed by the
    separator, in probing order, with the last byte of the whole removed.
    If the text and its terminator need more than [bufferSize] bytes the
    call returns BUFFER_ERROR and leaves the buffer alone; otherwise it
    copies text and terminator and returns the number of opened names. *)
Theorem getAvailablePorts_text
    buffer bufferSize separator (st : State W) :
  0 <= bufferSize <= INT_MAX ->
  let out := getAvailablePorts drv status buffer bufferSize separator st in
  exists answers,
    length answers = 256%nat /\
    calls (snd out)
      = calls st ++ concat (map probe_calls (combine (seq 1 256) answers)) /\
    let names := opened_names (combine (seq 1 256) answers) in
    let text :=
      removelast (concat (map (fun n => n ++ string_of_cstr separator) names)) in
    fst out
      = if bufferSize <? Z.of_nat (length text) + 1
        then (status BUFFER_ERROR, buffer)
        else (Z.of_nat (length names),
              text ++ [zero] ++ skipn (length text + 1) buffer).
Proof.
  intros Hn.
  destruct (getAvailablePorts_run buffer bufferSize separator st)
    as (answers & Hl & H). cbv zeta in H |- *.
  destruct H as (Hc & _ & _ & _ & _ & _ & Hr).
  exists answers. split; [exact Hl |]. split; [exact Hc |].
  rewrite Hr. unfold size_t_of_int.
  rewrite Z.mod_small by (unfold INT_MAX in Hn; lia). reflexivity.
Qed.

(** X16. With a negative [bufferSize] the size test never fires, because
    the comparison is made on unsigned numbers: for every separator of at
    most [INT_MAX] bytes the text and its terminator are copied to the
    caller's buffer and the number of opened names is returned. *)
Theorem getAvailablePorts_negative_size
    buffer bufferSize separator (st : State W) :
  - 2 ^ 31 <= bufferSize < 0 ->
  Z.of_nat (length (string_of_cstr separator)) <= INT_MAX ->
  let out := getAvailablePorts drv status buffer bufferSize separator st in
  exists answers,
    length answers = 256%nat /\
    calls (snd out)
      = calls st ++ concat (map probe_calls (combine (seq 1 256) answers)) /\
    let names := opened_names (combine (seq 1 256) answers) in
    let text :=
      removelast (concat (map (fun n => n ++ string_of_cstr separator) names)) in
    fst out = (Z.of_nat (length names),
               text ++ [zero] ++ skipn (length text + 1) buffer).
Proof.
  intros Hn Hsep.
  destruct (getAvailablePorts_run buffer bufferSize separator st)
    as (answers & Hl & H). cbv zeta in H |- *.
  destruct H as (Hc & _ & _ & _ & _ & Hlen & Hr).
  exists answers. split; [exact Hl |]. split; [exact Hc |].
  rewrite Hr.
  assert (Hs : size_t_of_int bufferSize = bufferSize + 2 ^ 64).
  { unfold size_t_of_int. symmetry.
    apply Z.mod_unique_pos with (q := -1); lia. }
  rewrite Hs. unfold INT_MAX in Hsep.
  match goal with
  | |- (if ?c then _ else _) = _ => destruct c eqn:E
  end; [| reflexivity].
  apply Z.ltb_lt in E. lia.
Qed.

(** X17. With [0 <= bufferSize], [getAvailablePorts] touches at most the
    first [bufferSize] bytes of the caller's storage: when the storage has
    that many bytes, its length is kept and every byte from position
    [bufferSize] on is unchanged. *)
Theorem getAvailablePorts_within_size
    buffer bufferSize separator (st : State W) :
  0 <= bufferSize <= INT_MAX ->
  bufferSize <= Z.of_nat (length buffer) ->
  let buffer' :=
    snd (fst (getAvailablePorts drv status buffer bufferSize separator st)) in
  length buffer' = length buffer /\
  skipn (Z.to_nat bufferSize) buffer' = skipn (Z.to_nat bufferSize) buffer.
Proof.
  intros Hn Hroom.
  destruct (getAvailablePorts_run buffer bufferSize separator st)
    as (answers & Hl & H). cbv zeta in H |- *.
  destruct H as (_ & _ & _ & _ & _ & _ & Hr).
  rewrite Hr. unfold size_t_of_int.
  rewrite Z.mod_small by (unfold INT_MAX in Hn; lia).
  match goal with
  | |- context [if ?c then _ else _] => destruct c eqn:E
  end; cbn [fst snd]; [split; reflexivity |].
  apply Z.ltb_ge in E.
  match goal with
  | |- context [?t ++ [zero] ++ skipn (length ?t + 1) buffer] =>
      replace (t ++ [zero] ++ skipn (length t + 1) buffer)
        with ((t ++ [zero]) ++ skipn (length (t ++ [zero])) buffer)
        by (rewrite length_app, <- app_assoc; reflexivity);
      apply overwrite_within; rewrite ?length_app; cbn [length]; lia
  end.
Qed.

End EnumerationMore.

(** ** The further properties on concrete machines *)

Lemma session_handle_valid : hSerialPort session <> INVALID_HANDLE_VALUE.
Proof. intros H. vm_compute in H. discriminate H. Qed.

Lemma rack_session_opened : opened rack_session.
Proof. unfold opened. vm_compute. left. reflexivity. Qed.

(** X2 at [close] on the opened [session]. *)
Lemma close_releases_once_witness :
  opened session /\
  exists ok,
    calls (snd (close Sim.driver status_dense session))
      = calls session ++ [CallCloseHandle (hSerialPort session) ok] /\
    ~ opened (snd (close Sim.driver status_dense session)) /\
    hSerialPort (snd (close Sim.driver status_dense session))
      = hSerialPort session.
Proof.
  split; [exact session_opened |].
  pose proof (close_releases_once Sim.driver status_dense session
                session_opened) as H.
  cbv zeta in H. destruct H as (ok & Hc & _ & Hn & Hh & _).
  exists ok. repeat split; assumption.
Defined.

(** X3 at opening COM99, which [desk] does not have. *)
Lemma failed_acquisition_arms_guard_witness :
  fst (drv_CreateFile Sim.driver (lit "COM99") FILE_ATTRIBUTE_NORMAL
         (world (initial desk))) = INVALID_HANDLE_VALUE /\
  read Sim.driver status_dense (scratch 16) 16 50 10
    (snd (open Sim.driver status_dense (lit "COM99") 9600 8 0 0 (initial desk)))
  = (status_dense INVALID_HANDLE_ERROR, scratch 16,
     snd (open Sim.driver status_dense (lit "COM99") 9600 8 0 0 (initial desk))).
Proof.
  assert (Hc : fst (drv_CreateFile Sim.driver (lit "COM99")
                      FILE_ATTRIBUTE_NORMAL (world (initial desk)))
               = INVALID_HANDLE_VALUE) by (vm_compute; reflexivity).
  split; [exact Hc |].
  pose proof (failed_acquisition_arms_guard Sim.driver status_dense
                (lit "COM99") 9600 8 0 0 (scratch 16) 16 50 10 [CR; LF; zero]
                (initial desk) Hc) as H.
  cbv zeta in H. destruct H as (_ & _ & Hr & _). exact Hr.
Defined.

(** X4 at opening COM7 on the session that holds COM1. *)
Lemma open_keeps_previous_handle_owned_witness :
  opened rack_session /\
  In (hSerialPort rack_session)
     (owned (calls (snd (open Sim.driver status_dense (lit "COM7") 9600 8 0 0
                           rack_session)))).
Proof.
  split; [exact rack_session_opened |].
  assert (Hne : hSerialPort (snd (open Sim.driver status_dense (lit "COM7")
                                    9600 8 0 0 rack_session))
                <> hSerialPort rack_session).
  { intros H. vm_compute in H. discriminate H. }
  exact (open_keeps_previous_handle_owned Sim.driver status_dense (lit "COM7")
           9600 8 0 0 rack_session rack_session_opened Hne).
Defined.

(** X5 at opening COM3 with baud rate -1 and 264 data bits. *)
Lemma open_stores_reduced_arguments_witness :
  fst (open Sim.driver status_dense (lit "COM3") (-1) 264 0 0 (initial desk))
    = status_dense SUCCESS /\
  BaudRate (dcbSerialParams
              (snd (open Sim.driver status_dense (lit "COM3") (-1) 264 0 0
                      (initial desk)))) = 4294967295 /\
  ByteSize (dcbSerialParams
              (snd (open Sim.driver status_dense (lit "COM3") (-1) 264 0 0
                      (initial desk)))) = 8.
Proof.
  assert (Hr : fst (open Sim.driver status_dense (lit "COM3") (-1) 264 0 0
                      (initial desk)) = status_dense SUCCESS)
    by (vm_compute; reflexivity).
  split; [exact Hr |].
  pose proof (open_stores_reduced_arguments Sim.driver status_dense
                (lit "COM3") (-1) 264 0 0 (initial desk)
                status_dense_signed Hr) as H.
  cbv zeta in H. destruct H as (H1 & H2 & _).
  split; [exact H1 | exact H2].
Defined.

(** X6 at reading a line, delimiter CR LF, from the opened [session]. *)
Lemma readUntil_stops_at_delimiter_witness :
  Occurs (string_of_cstr [CR; LF; zero])
    (data (snd (readUntil Sim.driver status_dense (scratch 33) 32 100 2
                  [CR; LF; zero] session))) /\
  exists pre,
    data (snd (readUntil Sim.driver status_dense (scratch 33) 32 100 2
                 [CR; LF; zero] session))
    = pre ++ string_of_cstr [CR; LF; zero].
Proof.
  assert (Hn : 32 <= INT_MAX) by (unfold INT_MAX; lia).
  assert (Hr : 0 <= fst (fst (readUntil Sim.driver status_dense (scratch 33)
                                32 100 2 [CR; LF; zero] session)))
    by (vm_compute; discriminate).
  assert (Hd : string_of_cstr [CR; LF; zero] <> []).
  { intros H. vm_compute in H. discriminate H. }
  assert (Ho : Occurs (string_of_cstr [CR; LF; zero])
                 (data (snd (readUntil Sim.driver status_dense (scratch 33)
                               32 100 2 [CR; LF; zero] session)))).
  { exists (lit "HELLO"), []. vm_compute. reflexivity. }
  split; [exact Ho |].
  pose proof (readUntil_stops_at_delimiter Sim.driver status_dense
                sim_driver_ok (scratch 33) 32 100 2 [CR; LF; zero] session
                status_dense_signed Hn) as H.
  cbv zeta in H. destruct (H Hr Hd Ho) as (Hsuf & _). exact Hsuf.
Defined.

(** X7 at [bufferSize] 0 on the opened [session]. *)
Lemma readUntil_without_room_witness :
  hSerialPort session <> INVALID_HANDLE_VALUE /\
  fst (readUntil Sim.driver status_dense (scratch 4) 0 100 2 [CR; LF; zero]
         session)
  = (0, zero :: skipn 1 (scratch 4)).
Proof.
  split; [exact session_handle_valid |].
  assert (Hn : 0 <= 0) by lia.
  assert (Hc : fst (drv_SetCommTimeouts Sim.driver (hSerialPort session)
                      (set_read_timeouts (DWORD_of_int 100) (DWORD_of_int 100)
                         (DWORD_of_int 2) (timeouts session))
                      (world session)) = true)
    by (vm_compute; reflexivity).
  pose proof (readUntil_without_room Sim.driver status_dense (scratch 4) 0
                100 2 [CR; LF; zero] session session_handle_valid Hn) as H.
  cbv zeta in H. exact (proj1 (H Hc)).
Defined.

(** X8 at a search string that is just the zero byte. *)
Lemma readUntil_empty_delimiter_witness :
  string_of_cstr [zero] = [] /\
  fst (readUntil Sim.driver status_dense (scratch 33) 32 100 2 [zero] session)
  = (0, zero :: skipn 1 (scratch 33)).
Proof.
  assert (Hd : string_of_cstr [zero] = []) by reflexivity.
  split; [exact Hd |].
  assert (Hc : fst (drv_SetCommTimeouts Sim.driver (hSerialPort session)
                      (set_read_timeouts (DWORD_of_int 100) (DWORD_of_int 100)
                         (DWORD_of_int 2) (timeouts session))
                      (world session)) = true)
    by (vm_compute; reflexivity).
  pose proof (readUntil_empty_delimiter Sim.driver status_dense (scratch 33)
                32 100 2 [zero] session session_handle_valid Hd) as H.
  cbv zeta in H. exact (proj1 (H Hc)).
Defined.

(** X9 at a buffer of 33 bytes and [bufferSize] 32. *)
Lemma readUntil_within_size_plus_one_witness :
  32 + 1 <= Z.of_nat (length (scratch 33)) /\
  length (snd (fst (readUntil Sim.driver status_dense (scratch 33) 32 100 2
                      [CR; LF; zero] session)))
  = length (scratch 33).
Proof.
  assert (Hn : 0 <= 32 <= INT_MAX) by (unfold INT_MAX; lia).
  assert (Hroom : 32 + 1 <= Z.of_nat (length (scratch 33)))
    by (vm_compute; discriminate).
  split; [exact Hroom |].
  pose proof (readUntil_within_size_plus_one Sim.driver status_dense
                sim_driver_ok (scratch 33) 32 100 2 [CR; LF; zero] session
                Hn Hroom) as H.
  cbv zeta in H. exact (proj1 H).
Defined.

(** X10 at a buffer of 3 bytes and [bufferSize] 3: three bytes arrive. *)
Lemma readUntil_terminator_overruns_witness :
  Z.of_nat (length (scratch 3))
    <= fst (fst (readUntil Sim.driver status_dense (scratch 3) 3 100 2
                   [CR; LF; zero] session)) /\
  Z.of_nat (length (snd (fst (readUntil Sim.driver status_dense (scratch 3) 3
                                100 2 [CR; LF; zero] session))))
  = fst (fst (readUntil Sim.driver status_dense (scratch 3) 3 100 2
                [CR; LF; zero] session)) + 1.
Proof.
  assert (Hn : 3 <= INT_MAX) by (unfold INT_MAX; lia).
  assert (Hr : Z.of_nat (length (scratch 3))
               <= fst (fst (readUntil Sim.driver status_dense (scratch 3) 3
                              100 2 [CR; LF; zero] session)))
    by (vm_compute; discriminate).
  split; [exact Hr |].
  pose proof (readUntil_terminator_overruns Sim.driver status_dense
                sim_driver_ok (scratch 3) 3 100 2 [CR; LF; zero] session
                status_dense_signed Hn) as H.
  cbv zeta in H. exact (H Hr).
Defined.

(** X11 at [read] of 16 bytes into a buffer of 16 bytes. *)
Lemma read_within_size_witness :
  16 <= Z.of_nat (length (scratch 16)) /\
  length (snd (fst (read Sim.driver status_dense (scratch 16) 16 50 10 session)))
  = length (scratch 16).
Proof.
  assert (Hn : 0 <= 16 <= INT_MAX) by (unfold INT_MAX; lia).
  assert (Hroom : 16 <= Z.of_nat (length (scratch 16)))
    by (vm_compute; discriminate).
  split; [exact Hroom |].
  pose proof (read_within_size Sim.driver status_dense sim_driver_ok
                (scratch 16) 16 50 10 session Hn Hroom) as H.
  cbv zeta in H. exact (proj1 H).
Defined.

(** X12 at [bufferSize] -1 on the opened [session]. *)
Lemma negative_size_wraps_witness :
  hSerialPort session <> INVALID_HANDLE_VALUE /\
  exists ok got,
    calls (snd (read Sim.driver status_dense (scratch 4) (-1) 50 10 session))
    = calls session ++
        [CallSetCommTimeouts (hSerialPort session)
           (set_read_timeouts (DWORD_of_int 50) (DWORD_of_int 50)
              (DWORD_of_int 10) (timeouts session)) true;
         CallReadFile (hSerialPort session) (-1 + 2 ^ 32) ok got].
Proof.
  split; [exact session_handle_valid |].
  assert (Hn : - 2 ^ 31 <= -1 < 0) by lia.
  assert (Hc : fst (drv_SetCommTimeouts Sim.driver (hSerialPort session)
                      (set_read_timeouts (DWORD_of_int 50) (DWORD_of_int 50)
                         (DWORD_of_int 10) (timeouts session))
                      (world session)) = true)
    by (vm_compute; reflexivity).
  pose proof (negative_size_wraps Sim.driver status_dense (scratch 4) (-1)
                50 10 session session_handle_valid Hn) as H.
  cbv zeta in H. exact (proj1 H Hc).
Defined.

(** X14 at enumerating on [rack]: the handle COM1 was opened with. *)
Lemma getAvailablePorts_releases_every_handle_witness :
  In (CallCreateFile (lit "COM1") 0 100)
     (skipn (length (calls (initial rack)))
        (calls (snd (getAvailablePorts Sim.driver status_dense (scratch 16) 16
                       (lit "," ++ [zero]) (initial rack))))) /\
  ~ In 100 (owned (calls (snd (getAvailablePorts Sim.driver status_dense
                                 (scratch 16) 16 (lit "," ++ [zero])
                                 (initial rack))))).
Proof.
  assert (Hin : In (CallCreateFile (lit "COM1") 0 100)
                  (skipn (length (calls (initial rack)))
                     (calls (snd (getAvailablePorts Sim.driver status_dense
                                    (scratch 16) 16 (lit "," ++ [zero])
                                    (initial rack))))))
    by (vm_compute; left; reflexivity).
  split; [exact Hin |].
  exact (getAvailablePorts_releases_every_handle Sim.driver status_dense
           (scratch 16) 16 (lit "," ++ [zero]) (initial rack)
           (lit "COM1") 0 100 Hin).
Defined.

(** X15 at enumerating on [rack] with the separator comma-space. *)
Lemma getAvailablePorts_text_witness :
  0 <= 16 <= INT_MAX /\
  exists answers,
    length answers = 256%nat /\
    calls (snd (getAvailablePorts Sim.driver status_dense (scratch 16) 16
                  (lit ", " ++ [zero]) (initial rack)))
    = calls (initial rack)
        ++ concat (map probe_calls (combine (seq 1 256) answers)).
Proof.
  assert (Hn : 0 <= 16 <= INT_MAX) by (unfold INT_MAX; lia).
  split; [exact Hn |].
  pose proof (getAvailablePorts_text Sim.driver status_dense (scratch 16) 16
                (lit ", " ++ [zero]) (initial rack) Hn) as H.
  cbv zeta in H. destruct H as (answers & Hl & Hc & _).
  exists answers. split; [exact Hl | exact Hc].
Defined.

(** X16 at enumerating on [rack] with [bufferSize] -1. *)
Lemma getAvailablePorts_negative_size_witness :
  Z.of_nat (length (string_of_cstr (lit "," ++ [zero]))) <= INT_MAX /\
  exists answers,
    length answers = 256%nat /\
    calls (snd (getAvailablePorts Sim.driver status_dense (scratch 16) (-1)
                  (lit "," ++ [zero]) (initial rack)))
    = calls (initial rack)
        ++ concat (map probe_calls (combine (seq 1 256) answers)).
Proof.
  assert (Hn : - 2 ^ 31 <= -1 < 0) by lia.
  assert (Hs : Z.of_nat (length (string_of_cstr (lit "," ++ [zero])))
               <= INT_MAX) by (vm_compute; discriminate).
  split; [exact Hs |].
  pose proof (getAvailablePorts_negative_size Sim.driver status_dense
                (scratch 16) (-1) (lit "," ++ [zero]) (initial rack) Hn Hs)
    as H.
  cbv zeta in H. destruct H as (answers & Hl & Hc & _).
  exists answers. split; [exact Hl | exact Hc].
Defined.

(** X17 at enumerating on [rack] into a buffer of 16 bytes. *)
Lemma getAvailablePorts_within_size_witness :
  16 <= Z.of_nat (length (scratch 16)) /\
  length (snd (fst (getAvailablePorts Sim.driver status_dense (scratch 16) 16
                      (lit "," ++ [zero]) (initial rack))))
  = length (scratch 16).
Proof.
  assert (Hn : 0 <= 16 <= INT_MAX) by (unfold INT_MAX; lia).
  assert (Hroom : 16 <= Z.of_nat (length (scratch 16)))
    by (vm_compute; discriminate).
  split; [exact Hroom |].
  pose proof (getAvailablePorts_within_size Sim.driver status_dense
                (scratch 16) 16 (lit "," ++ [zero]) (initial rack) Hn Hroom)
    as H.
  cbv zeta in H. exact (proj1 H).
Defined.

(** X19 at [close] and then [read] on the opened [session]. *)
Lemma read_after_close_reaches_driver_witness :
  opened session /\
  exists t ok rest,
    calls (snd (read Sim.driver status_dense (scratch 16) 16 50 10
                  (snd (close Sim.driver status_dense session))))
    = calls (snd (close Sim.driver status_dense session))
        ++ CallSetCommTimeouts (hSerialPort session) t ok :: rest.
Proof.
  split; [exact session_opened |].
  exact (proj2 (read_after_close_reaches_driver Sim.driver status_dense
                  (scratch 16) 16 50 10 session session_opened)).
Defined.

(** X20 at enumerating on [rack] with the separator comma. *)
Lemma getAvailablePorts_one_byte_separator_witness :
  string_of_cstr (lit "," ++ [zero]) = [","%char] /\
  exists found,
    probed (calls (snd (getAvailablePorts Sim.driver status_dense (scratch 16)
                          16 (lit "," ++ [zero]) (initial rack))))
    = probed (calls (initial rack)) ++ found.
Proof.
  assert (Hs : string_of_cstr (lit "," ++ [zero]) = [","%char])
    by reflexivity.
  assert (Hn : 0 <= 16 <= INT_MAX) by (unfold INT_MAX; lia).
  split; [exact Hs |].
  destruct (getAvailablePorts_one_byte_separator Sim.driver status_dense
              (scratch 16) 16 (lit "," ++ [zero]) ","%char (initial rack)
              Hs Hn) as (found & Hp & _).
  exists found. exact Hp.
Defined.

(** ** Negative sizes and timeouts on the simulated driver *)

(** On the simulated driver a [read] that asks for at least the bytes
    pending gets them all. *)
Lemma sim_read_delivers_pending
    buffer bufferSize timeout multiplier (st : State Sim.World) :
  hSerialPort st <> INVALID_HANDLE_VALUE ->
  Sim.serves Sim.ReqSetCommTimeouts (hSerialPort st) (world st) = true ->
  Sim.rx_fault (world st) = None ->
  Z.of_nat (length (Sim.rx (world st))) <= DWORD_of_int bufferSize ->
  fst (fst (read Sim.driver status_dense buffer bufferSize timeout multiplier st))
    = int_of_unsigned (Z.of_nat (length (Sim.rx (world st)))) /\
  calls (snd (read Sim.driver status_dense buffer bufferSize timeout
                multiplier st))
    = calls st ++
        [CallSetCommTimeouts (hSerialPort st)
           (set_read_timeouts (DWORD_of_int timeout) (DWORD_of_int timeout)
              (DWORD_of_int multiplier) (timeouts st)) true;
         CallReadFile (hSerialPort st) (DWORD_of_int bufferSize) true
           (Sim.rx (world st))].
Proof.
  intros Hv Hs Hf Hlen. apply Z.eqb_neq in Hv.
  assert (Hl : Sim.is_live (hSerialPort st) (world st) = true).
  { unfold Sim.serves in Hs. apply andb_true_iff in Hs. apply Hs. }
  unfold read, SetCommTimeouts, ReadFile. run. rewrite Hv.
  cbn [timeouts hSerialPort world set_timeouts called drv_SetCommTimeouts
       drv_ReadFile Sim.driver].
  unfold Sim.SetCommTimeouts. rewrite Hs. cbn [fst snd negb world called].
  unfold Sim.ReadFile, Sim.is_live in *.
  cbn [Sim.live Sim.rx Sim.rx_fault]. rewrite Hl, Hf.
  rewrite firstn_all2 by lia.
  cbn [fst snd negb calls called]. rewrite <- app_assoc. split; reflexivity.
Qed.

(** On the simulated driver a [write] takes everything it is offered. *)
Lemma sim_write_takes_offered
    buffer bufferSize timeout multiplier (st : State Sim.World) :
  Sim.serves Sim.ReqSetCommTimeouts (hSerialPort st) (world st) = true ->
  Sim.serves Sim.ReqWriteFile (hSerialPort st) (world st) = true ->
  Z.of_nat (length buffer) <= DWORD_of_int bufferSize ->
  fst (write Sim.driver status_dense buffer bufferSize timeout multiplier st)
    = int_of_unsigned (Z.of_nat (length buffer)) /\
  calls (snd (write Sim.driver status_dense buffer bufferSize timeout
                multiplier st))
    = calls st ++
        [CallSetCommTimeouts (hSerialPort st)
           (set_write_timeouts (DWORD_of_int timeout) (DWORD_of_int multiplier)
              (timeouts st)) true;
         CallWriteFile (hSerialPort st) buffer true
           (Z.of_nat (length buffer))].
Proof.
  intros Hs Hw Hlen.
  unfold write, SetCommTimeouts, WriteFile. run.
  cbn [timeouts hSerialPort world set_timeouts called drv_SetCommTimeouts
       drv_WriteFile Sim.driver].
  unfold Sim.SetCommTimeouts. rewrite Hs. cbn [fst snd negb world called].
  unfold Sim.WriteFile, Sim.serves, Sim.is_live, Sim.refuses in *.
  cbn [Sim.live Sim.refused]. rewrite Hw.
  rewrite firstn_all2 by lia.
  cbn [fst snd negb calls called]. rewrite <- app_assoc. split; reflexivity.
Qed.

(** C7, as it is written, fails on negative arguments. With [bufferSize]
    -1 on the opened [session], whose peer has sent twelve bytes, [read]
    asks the driver for 4294967295 bytes and returns 12, which is greater
    than [bufferSize]. With timeout -1 and multiplier -2 the inter-byte
    interval and the total constant are set to 4294967295 and the
    multiplier to 4294967294, not to the arguments. *)
Lemma read_negative_arguments :
  opened session /\
  fst (fst (read Sim.driver status_dense (scratch 16) (-1) 50 10 session)) = 12 /\
  -1 < fst (fst (read Sim.driver status_dense (scratch 16) (-1) 50 10 session)) /\
  calls (snd (read Sim.driver status_dense (scratch 16) (-1) 50 10 session))
    = calls session ++
        [CallSetCommTimeouts (hSerialPort session)
           (set_read_timeouts 50 50 10 (timeouts session)) true;
         CallReadFile (hSerialPort session) 4294967295 true peer_text] /\
  timeouts (snd (read Sim.driver status_dense (scratch 16) 16 (-1) (-2) session))
    = mkTimeouts 4294967295 4294967294 4294967295 10 50.
Proof.
  assert (Hs : Sim.serves Sim.ReqSetCommTimeouts (hSerialPort session)
                 (world session) = true) by (vm_compute; reflexivity).
  assert (Hf : Sim.rx_fault (world session) = None)
    by (vm_compute; reflexivity).
  assert (Hlen : Z.of_nat (length (Sim.rx (world session)))
                 <= DWORD_of_int (-1)) by (vm_compute; discriminate).
  destruct (sim_read_delivers_pending (scratch 16) (-1) 50 10 session
              session_handle_valid Hs Hf Hlen) as [Hr Hc].
  split; [exact session_opened |].
  rewrite Hr, Hc.
  repeat split; vm_compute; reflexivity.
Qed.

(** C8, as it is written, fails on negative arguments. With [bufferSize]
    -1 on the opened [session], [write] offers the driver all five bytes at
    the caller's pointer and returns 5, which is more than [bufferSize]
    bytes. With timeout -1 and multiplier -2 the total write constant is
    set to 4294967295 and the multiplier to 4294967294, not to the
    arguments. *)
Lemma write_negative_arguments :
  fst (write Sim.driver status_dense (lit "PING!") (-1) 50 10 session) = 5 /\
  -1 < fst (write Sim.driver status_dense (lit "PING!") (-1) 50 10 session) /\
  calls (snd (write Sim.driver status_dense (lit "PING!") (-1) 50 10 session))
    = calls session ++
        [CallSetCommTimeouts (hSerialPort session)
           (set_write_timeouts 50 10 (timeouts session)) true;
         CallWriteFile (hSerialPort session) (lit "PING!") true 5] /\
  timeouts (snd (write Sim.driver status_dense (lit "PING!") 4 (-1) (-2) session))
    = mkTimeouts 50 10 50 4294967294 4294967295.
Proof.
  assert (Hs : Sim.serves Sim.ReqSetCommTimeouts (hSerialPort session)
                 (world session) = true) by (vm_compute; reflexivity).
  assert (Hw : Sim.serves Sim.ReqWriteFile (hSerialPort session)
                 (world session) = true) by (vm_compute; reflexivity).
  assert (Hlen : Z.of_nat (length (lit "PING!")) <= DWORD_of_int (-1))
    by (vm_compute; discriminate).
  destruct (sim_write_takes_offered (lit "PING!") (-1) 50 10 session
              Hs Hw Hlen) as [Hr Hc].
  rewrite Hr, Hc.
  repeat split; vm_compute; reflexivity.
Qed.
